(** * area_per_ppp_sector: land footprint per sector

    A shallow embedding of [area_per_ppp_sector.py]: the script collects
    World Bank indicator series into one country table, derives the PPP
    ratio, builds the country x sector matrix of PPP-adjusted outputs from
    the OUT row of the ICIO table, removes the rows with missing data and
    hands the rest to [scipy.optimize.lsq_linear].

    Numbers are IEEE binary64 values ([PrimFloat.float]), which is what
    numpy's float64 is.  Labelled pandas data are association lists in index
    order.  Python exceptions are an error type, [print] appends to a list
    of output lines. *)

From Stdlib Require Import String Ascii List Bool Arith Lia ZArith Floats Sorted.
Import ListNotations.

Local Open Scope string_scope.
Local Open Scope list_scope.

(** ** Exceptions *)

(** The exceptions the script's own statements can raise. *)
Inductive exn : Type :=
| KeyError (key : string)
| IndexError
| NameError (name : string)
| ValueError (message : string).

Inductive result (A : Type) : Type :=
| Ok (a : A)
| Raise (e : exn).

Arguments Ok {A} a.
Arguments Raise {A} e.

Definition bind {A B : Type} (r : result A) (k : A -> result B) : result B :=
  match r with
  | Ok a => k a
  | Raise e => Raise e
  end.

Notation "x <- r ;; k" := (bind r (fun x => k))
  (at level 61, r at next level, right associativity).

(** [for x in l: st = body st x], stopping at the first exception. *)
Fixpoint for_each {A S : Type} (body : S -> A -> result S) (l : list A) (st : S)
  : result S :=
  match l with
  | [] => Ok st
  | x :: l' => st' <- body st x ;; for_each body l' st'
  end.

(** [enumerate(l)], counting from [start]. *)
Definition enumerate_from {A : Type} (start : nat) (l : list A) : list (nat * A) :=
  combine (seq start (length l)) l.

Definition enumerate {A : Type} (l : list A) : list (nat * A) :=
  enumerate_from 0 l.

(** ** Python strings *)

Module Py.

(** [s.startswith(p)] *)
Fixpoint startswith (s p : string) {struct p} : bool :=
  match p with
  | EmptyString => true
  | String a p' =>
      match s with
      | EmptyString => false
      | String b s' => Ascii.eqb a b && startswith s' p'
      end
  end.

(** [s[n:]] for [n >= 0]: the empty string when [n] exceeds the length. *)
Fixpoint slice_from (n : nat) (s : string) : string :=
  match n, s with
  | O, _ => s
  | S _, EmptyString => EmptyString
  | S n', String _ s' => slice_from n' s'
  end.

(** [zip(xs, ys)] stops at the end of the shorter argument. *)
Definition zip {A B : Type} (xs : list A) (ys : list B) : list (A * B) :=
  combine xs ys.

(** A [dict] with string keys, in insertion order. *)
Definition dict (V : Type) : Type := list (string * V).

(** [d[k] = v]: an existing key keeps its place and takes the new value. *)
Fixpoint dict_set {V : Type} (d : dict V) (k : string) (v : V) : dict V :=
  match d with
  | [] => [(k, v)]
  | (k', v') :: d' =>
      if String.eqb k' k then (k', v) :: d' else (k', v') :: dict_set d' k v
  end.

Fixpoint dict_get {V : Type} (d : dict V) (k : string) : option V :=
  match d with
  | [] => None
  | (k', v') :: d' => if String.eqb k' k then Some v' else dict_get d' k
  end.

(** [dict(pairs)] *)
Definition dict_of {V : Type} (pairs : list (string * V)) : dict V :=
  fold_left (fun d kv => dict_set d (fst kv) (snd kv)) pairs [].

End Py.

(** ** Sector extraction (line 85) *)

Definition reference_prefix : string := "AUS_".

(** [[sect[4:] for sect in all_matrix.columns if sect.startswith("AUS_")]] *)
Fixpoint sectors_of (columns : list string) : list string :=
  match columns with
  | [] => []
  | sect :: rest =>
      if Py.startswith sect reference_prefix
      then Py.slice_from 4 sect :: sectors_of rest
      else sectors_of rest
  end.

(** What the specification asks of sector extraction: [extracts cols secs]
    when [secs] lists, in the order of [cols], the remainder of every column
    label that is the reference prefix followed by that remainder, and
    nothing for the other labels. *)
Inductive extracts : list string -> list string -> Prop :=
| extracts_nil : extracts [] []
| extracts_keep (col sec : string) (cols secs : list string) :
    col = (reference_prefix ++ sec)%string ->
    extracts cols secs ->
    extracts (col :: cols) (sec :: secs)
| extracts_skip (col : string) (cols secs : list string) :
    (forall sec, col <> (reference_prefix ++ sec)%string) ->
    extracts cols secs ->
    extracts (col :: cols) secs.


(** ** numpy arrays of rank two *)

Module Numpy.

(** A float64 array with its shape [(nrows, ncols)]; the shape is kept
    beside the rows because an array with no row still has a column count. *)
Record ndarray : Type := {
  nrows : nat;
  ncols : nat;
  rows : list (list float)
}.

(** [numpy.zeros((n, k))] *)
Definition zeros (n k : nat) : ndarray :=
  {| nrows := n; ncols := k; rows := repeat (repeat 0%float k) n |}.

(** [l[i] = v] for [i] within the list. *)
Fixpoint list_set {A : Type} (l : list A) (i : nat) (v : A) : list A :=
  match l, i with
  | [], _ => []
  | _ :: l', O => v :: l'
  | x :: l', S i' => x :: list_set l' i' v
  end.

(** [a[c, s] = v] with [c, s >= 0]; an index outside the shape raises. *)
Definition setitem (a : ndarray) (c s : nat) (v : float) : result ndarray :=
  if Nat.ltb c (nrows a) && Nat.ltb s (ncols a)
  then Ok {| nrows := nrows a;
             ncols := ncols a;
             rows := list_set (rows a) c (list_set (nth c (rows a) []) s v) |}
  else Raise IndexError.

(** [a[c, s]] read back, for stating results. *)
Definition cell (a : ndarray) (c s : nat) : option float :=
  match nth_error (rows a) c with
  | Some row => nth_error row s
  | None => None
  end.

(** [numpy.isnan(a).any(1)]: per row, whether some cell is not a number. *)
Definition isnan_any (a : ndarray) : list bool :=
  map (existsb is_nan) (rows a).

(** [~mask] *)
Definition invert (mask : list bool) : list bool := map negb mask.

(** The elements of [l] at the positions where [mask] holds. *)
Fixpoint select {A : Type} (mask : list bool) (l : list A) : list A :=
  match mask, l with
  | b :: mask', x :: l' => if b then x :: select mask' l' else select mask' l'
  | _, _ => []
  end.

(** [a[mask]] for a boolean [mask] along the rows. *)
Definition boolean_index (a : ndarray) (mask : list bool) : ndarray :=
  let kept := select mask (rows a) in
  {| nrows := length kept; ncols := ncols a; rows := kept |}.

(** [a[:, :-1]] *)
Definition all_but_last_column (a : ndarray) : ndarray :=
  {| nrows := nrows a; ncols := pred (ncols a); rows := map (@removelast float) (rows a) |}.

(** [a[:, -1]]: index -1 is out of bounds for an axis of size 0. *)
Definition last_column (a : ndarray) : result (list float) :=
  match ncols a with
  | O => Raise IndexError
  | S _ => Ok (map (fun row => last row 0%float) (rows a))
  end.

End Numpy.

(** ** pandas series and frames *)

Module Pandas.

(** A series: values with their labels, in index order.  A label may occur
    more than once. *)
Definition Series (L : Type) : Type := list (L * float).

Definition index {L : Type} (s : Series L) : list L := map fst s.

Definition values {L : Type} (s : Series L) : list float := map snd s.

(** What [s[key]] evaluates to: the value of a label that occurs once, or
    the series of the values of a label that occurs several times. *)
Inductive item : Type :=
| Scalar (v : float)
| SubSeries (vs : list float).

(** The entries of a series under a label. *)
Definition entries (s : Series string) (key : string) : Series string :=
  filter (fun lv => String.eqb (fst lv) key) s.

(** [s[key]] by label; a label that is not in the index raises [KeyError]. *)
Definition getitem (s : Series string) (key : string) : result item :=
  match entries s key with
  | [] => Raise (KeyError key)
  | [lv] => Ok (Scalar (snd lv))
  | lv :: more => Ok (SubSeries (values (lv :: more)))
  end.

(** [index.is_unique] *)
Fixpoint is_unique (labels : list string) : bool :=
  match labels with
  | [] => true
  | label :: rest => negb (existsb (String.eqb label) rest) && is_unique rest
  end.

(** [s.index = f(s.index)] *)
Definition relabel {L M : Type} (f : L -> M) (s : Series L) : Series M :=
  map (fun lv => (f (fst lv), snd lv)) s.

(** [a / b] for two series that carry the same index (two columns of one
    frame): the quotient label by label, in index order. *)
Definition truediv (a b : Series string) : Series string :=
  map (fun ab => (fst (fst ab), (snd (fst ab) / snd (snd ab))%float)) (combine a b).

(** A frame: the row labels and the named columns, each column holding one
    value per row label. *)
Record DataFrame : Type := {
  df_index : list string;
  df_columns : list (string * list float)
}.

(** The values of a column set beside the row labels. *)
Fixpoint align (labels : list string) (vals : list float) : Series string :=
  match labels with
  | [] => []
  | label :: labels' => (label, hd nan vals) :: align labels' (tl vals)
  end.

Fixpoint lookup_column (columns : list (string * list float)) (name : string)
  : option (list float) :=
  match columns with
  | [] => None
  | (name', vals) :: columns' =>
      if String.eqb name' name then Some vals else lookup_column columns' name
  end.

(** [df[name]]; a missing column raises [KeyError]. *)
Definition column (df : DataFrame) (name : string) : result (Series string) :=
  match lookup_column (df_columns df) name with
  | Some vals => Ok (align (df_index df) vals)
  | None => Raise (KeyError name)
  end.

(** [pandas.DataFrame({name: s})] *)
Definition of_series (name : string) (s : Series string) : DataFrame :=
  {| df_index := index s; df_columns := [(name, values s)] |}.

(** [s.reindex(labels)]: the value of each label, not-a-number where the
    series has none.  A series in which a label occurs twice cannot be
    reindexed onto any label: [ValueError]. *)
Definition reindex (s : Series string) (labels : list string) : result (list float) :=
  if is_unique (index s)
  then Ok (map (fun label =>
                  match getitem s label with
                  | Ok (Scalar v) => v
                  | _ => nan
                  end) labels)
  else match labels with
       | [] => Ok []
       | _ :: _ => Raise (ValueError "cannot reindex on an axis with duplicate labels")
       end.

(** Replace the column called [name], or append it after the others. *)
Fixpoint put_column (columns : list (string * list float)) (name : string)
  (vals : list float) : list (string * list float) :=
  match columns with
  | [] => [(name, vals)]
  | (name', vals') :: columns' =>
      if String.eqb name' name then (name', vals) :: columns'
      else (name', vals') :: put_column columns' name vals
  end.

(** A frame with no row takes the index of the first series stored in it;
    the columns it already has are filled with not-a-number. *)
Definition ensure_valid_index (df : DataFrame) (s : Series string) : DataFrame :=
  match df_index df with
  | [] => {| df_index := index s;
             df_columns := map (fun c => (fst c, repeat nan (length s))) (df_columns df) |}
  | _ :: _ => df
  end.

(** [df[name] = s]: the series is taken as it is when it carries the
    frame's very index, and reindexed onto the frame's index otherwise. *)
Definition set_column (df : DataFrame) (name : string) (s : Series string)
  : result DataFrame :=
  let df' := ensure_valid_index df s in
  vals <- (if list_eq_dec string_dec (index s) (df_index df')
           then Ok (values s)
           else reindex s (df_index df')) ;;
  Ok {| df_index := df_index df';
        df_columns := put_column (df_columns df') name vals |}.

(** The larger of two numbers, the second on a tie. *)
Definition fmax (a b : float) : float := if (b <? a)%float then a else b.

(** [max] over observations with [skipna]: the largest number among those
    that are numbers, not-a-number when there is none. *)
Definition nanmax (obs : list float) : float :=
  match filter (fun x => negb (is_nan x)) obs with
  | [] => nan
  | x :: xs => fold_left fmax xs x
  end.

(** [df.max(axis=0)] on a table given by its columns: one value per column,
    under the column's label. *)
Definition max_axis0 {L : Type} (data : list (L * list float)) : Series L :=
  map (fun col => (fst col, nanmax (snd col))) data.

End Pandas.

Import Numpy Pandas.

(** ** Indicator harmonizer (lines 46-68) *)

Definition indicators : list (string * string) :=
  [ ("AG_LND_AGRI_ZS", "Agricultural land (% of land area)");
    ("AG_LND_FRST_K2", "Forest area (sq. km)");
    ("EN_ATM_CO2E_PC", "CO2 emissions (metric tons per capita)");
    ("NY_GDP_MKTP_CD", "GDP (current US$)");
    ("NY_GNP_PCAP_CD", "GNI per capita, Atlas method (current US$)");
    ("NY_GNP_PCAP_PP_CD", "GNI per capita, PPP (current international $)");
    ("NY_GNP_ATLS_CD", "GNI, Atlas method (current US$)");
    ("NY_GNP_MKTP_PP_CD", "GNI, PPP (current international $)");
    ("AG_SRF_TOTL_K2", "Surface area (sq. km)") ].

Definition gni_atlas : string := "GNI per capita, Atlas method (current US$)".

Definition gni_ppp : string := "GNI per capita, PPP (current international $)".

(** The key of one column of [data.write()]: FREQ, SERIES, REF_AREA. *)
Definition series_key : Type := string * string * string.

(** [data.write()]: per series key, the observations down the time axis
    (oldest first), not-a-number where a period has none. *)
Definition observations : Type := list (series_key * list float).

(** [index.droplevel()] removes the first level of the labels. *)
Definition droplevel3 (k : series_key) : string * string := (snd (fst k), snd k).

Definition droplevel2 (k : string * string) : string := snd k.

(** Lines 61-62: [sequence = data.write().max(axis=0)], then the index
    without its first two levels. *)
Definition sequence_of (data : observations) : Series string :=
  relabel droplevel2 (relabel droplevel3 (max_axis0 data)).

(** One turn of the loop of line 47; [None] is the name [alldata] not bound
    yet, which the script meets as a [NameError]. *)
Definition collect (unstats_get : string -> observations)
  (alldata : option DataFrame) (indicator : string * string)
  : result (option DataFrame) :=
  let sequence := sequence_of (unstats_get (fst indicator)) in
  match alldata with
  | Some df => df' <- set_column df (snd indicator) sequence ;; Ok (Some df')
  | None => Ok (Some (of_series (snd indicator) sequence))
  end.

(** Lines 47-68: the table of all indicators with its PPP column. *)
Definition harmonize (unstats_get : string -> observations) : result DataFrame :=
  table <- for_each (collect unstats_get) indicators None ;;
  match table with
  | None => Raise (NameError "alldata")
  | Some alldata =>
      atlas <- column alldata gni_atlas ;;
      ppp <- column alldata gni_ppp ;;
      set_column alldata "PPP" (truediv atlas ppp)
  end.

(** ** Design matrix builder (lines 84-113)

    [all_output] is the row OUT of the ICIO table, a series whose index is
    [all_matrix.columns]. *)

(** The composite key of line 105. *)
Definition composite (country sector : string) : string :=
  (country ++ "_" ++ sector)%string.

(** The right-hand side of lines 105-106 as a number for the cell.  When a
    label occurs several times either lookup is a series, so is the quotient,
    and the assignment of line 105 cannot store it: [ValueError]. *)
Definition ppp_output (alldata : DataFrame) (all_output : Series string)
  (country sector : string) : result float :=
  o <- getitem all_output (composite country sector) ;;
  ppp <- column alldata "PPP" ;;
  p <- getitem ppp country ;;
  match o, p with
  | Scalar o', Scalar p' => Ok (o' / p')%float
  | _, _ => Raise (ValueError "setting an array element with a sequence.")
  end.

(** The land areas of line 87, the matrix under construction and the lines
    printed so far. *)
Record state : Type := {
  countryarea : list float;
  output_ppp : ndarray;
  stdout : list string
}.

(** Lines 104-110: the body of the inner loop. *)
Definition assign_cell (alldata : DataFrame) (all_output : Series string)
  (c : nat) (country : string) (st : state) (ss : nat * string) : result state :=
  match ppp_output alldata all_output country (snd ss) with
  | Ok v =>
      a <- setitem (output_ppp st) c (fst ss) v ;;
      Ok {| countryarea := countryarea st; output_ppp := a; stdout := stdout st |}
  | Raise (KeyError _) =>
      let out := stdout st ++ [composite country (snd ss)] in
      a <- setitem (output_ppp st) c (fst ss) nan ;;
      Ok {| countryarea := countryarea st; output_ppp := a; stdout := out |}
  | Raise e => Raise e
  end.

(** Line 103: the inner loop over the sectors. *)
Definition fill_row (alldata : DataFrame) (all_output : Series string)
  (sectors : list string) (st : state) (cc : nat * string) : result state :=
  for_each (assign_cell alldata all_output (fst cc) (snd cc)) (enumerate sectors) st.

(** Lines 85-110: the sectors, the countries, the land areas of line 87
    (a [KeyError] when the table has no such column), then the loops. *)
Definition build (alldata : DataFrame) (all_output : Series string) : result state :=
  let sectors := sectors_of (index all_output) in
  let countries := df_index alldata in
  areas <- column alldata "Surface area (sq. km)" ;;
  for_each (fill_row alldata all_output sectors) (enumerate countries)
    {| countryarea := values areas;
       output_ppp := zeros (length countries) (length sectors);
       stdout := [] |}.

(** Line 113: [output_ppp[~numpy.isnan(output_ppp).any(1)]]. *)
Definition remove_missing (a : ndarray) : ndarray :=
  boolean_index a (invert (isnan_any a)).

(** The positions at which a mask holds ([numpy.flatnonzero]); used to say
    which rows boolean indexing keeps. *)
Fixpoint flatnonzero_from (start : nat) (mask : list bool) : list nat :=
  match mask with
  | [] => []
  | b :: mask' =>
      if b then start :: flatnonzero_from (S start) mask'
      else flatnonzero_from (S start) mask'
  end.

(** The indices of the rows of [a] that line 113 keeps. *)
Definition retained_rows (a : ndarray) : list nat :=
  flatnonzero_from 0 (invert (isnan_any a)).

(** ** Coefficient estimator (lines 115-118) *)

(** Lines 85-115 up to the call: the build, the row filter, and the
    arguments of the call, [output_ppp[:,:-1]] and [output_ppp[:,-1]], with
    the lines printed on the way. *)
Definition estimator_input (alldata : DataFrame) (all_output : Series string)
  : result (list string * ndarray * list float) :=
  st <- build alldata all_output ;;
  let output := remove_missing (output_ppp st) in
  let predictors := all_but_last_column output in
  target <- last_column output ;;
  Ok (stdout st, predictors, target).

(** What a run leaves: the diagnostic lines and the mapping printed last. *)
Record outcome : Type := {
  diagnostics : list string;
  report : Py.dict float
}.

Section Estimator.

(** [scipy.optimize.lsq_linear(A, b, (0, numpy.inf)).x], a library routine
    outside this script. *)
Variable lsq_linear : ndarray -> list float -> result (list float).

(** Lines 85-118. *)
Definition main (alldata : DataFrame) (all_output : Series string) : result outcome :=
  args <- estimator_input alldata all_output ;;
  x <- lsq_linear (snd (fst args)) (snd args) ;;
  Ok {| diagnostics := fst (fst args);
        report := Py.dict_of (Py.zip (sectors_of (index all_output)) x) |}.

(** The whole script, from the answers of the indicator service. *)
Definition script (unstats_get : string -> observations) (all_output : Series string)
  : result outcome :=
  alldata <- harmonize unstats_get ;;
  main alldata all_output.

End Estimator.

(** ** The OEC atlas query (lines 14-27) *)

From Stdlib Require Import DecimalString DecimalZ DecimalPos.

Module Atlas.

(** ["{:}".format(n)] for an [int]: its decimal digits, with a minus sign
    when it is negative. *)
Definition format_int (n : Z) : string :=
  NilZero.string_of_int (Z.to_int n).

(** [default if x is None else x] *)
Definition or_default (default : string) (x : option string) : string :=
  match x with
  | None => default
  | Some s => s
  end.

(** The address that [atlas_api_call] opens. *)
Definition atlas_url (model : string) (export : bool) (year : Z)
  (origin destination product : option string) : string :=
  ("http://atlas.media.mit.edu/" ++ model ++ "/"
   ++ (if export then "export" else "import") ++ "/"
   ++ format_int year ++ "/"
   ++ or_default "all" origin ++ "/"
   ++ or_default "all" destination ++ "/"
   ++ or_default "show" product ++ "/")%string.

(** The default of the parameter [year], from the year in which the module
    is loaded. *)
Definition default_year (this_year : Z) : Z := (this_year - 2)%Z.

(** [atlas_api_call]: the answer of the service at that address, read as
    JSON; [load_url] stands for [json.load(urllib.request.urlopen(url))]. *)
Definition atlas_api_call {J : Type} (load_url : string -> J)
  (model : string) (export : bool) (year : Z)
  (origin destination product : option string) : J :=
  load_url (atlas_url model export year origin destination product).

(** A text without the character that separates the parts of a path. *)
Fixpoint slash_free (s : string) : bool :=
  match s with
  | EmptyString => true
  | String a s' => negb (Ascii.eqb a "/") && slash_free s'
  end.

End Atlas.

(** ** Definitions used to state and prove the properties *)

Module F64.

(** A key that orders the binary64 values other than not-a-number the way
    [SFcompare] does: by class and sign, then exponent, then mantissa. *)
Definition rank (x : spec_float) : Z * Z * Z :=
  match x with
  | S754_nan => (0, 0, 0)
  | S754_zero _ => (0, 0, 0)
  | S754_infinity true => (-2, 0, 0)
  | S754_infinity false => (2, 0, 0)
  | S754_finite true m e => (-1, - e, - Zpos m)
  | S754_finite false m e => (1, e, Zpos m)
  end%Z.

Definition lex_le (a b : Z * Z * Z) : Prop :=
  (fst (fst a) < fst (fst b) \/
   fst (fst a) = fst (fst b) /\
   (snd (fst a) < snd (fst b) \/
    snd (fst a) = snd (fst b) /\ snd a <= snd b))%Z.

Definition lex_lt (a b : Z * Z * Z) : Prop :=
  (fst (fst a) < fst (fst b) \/
   fst (fst a) = fst (fst b) /\
   (snd (fst a) < snd (fst b) \/
    snd (fst a) = snd (fst b) /\ snd a < snd b))%Z.

End F64.

(** The number that the loop body leaves in the cell of a country and a
    sector: the quotient, or not-a-number after a [KeyError]. *)
Definition cell_value (alldata : DataFrame) (all_output : Series string)
  (country sector : string) : float :=
  match ppp_output alldata all_output country sector with
  | Ok v => v
  | Raise _ => nan
  end.

(** The lines that the loop body prints for a country and a sector. *)
Definition cell_lines (alldata : DataFrame) (all_output : Series string)
  (country sector : string) : list string :=
  match ppp_output alldata all_output country sector with
  | Raise (KeyError _) => [composite country sector]
  | _ => []
  end.

(** A row without an unresolved cell. *)
Definition resolved (row : list float) : Prop :=
  forall v, In v row -> is_nan v = false.

(** An array of the shape [(n, k)]: [n] rows of [k] cells each. *)
Definition has_shape (n k : nat) (a : ndarray) : Prop :=
  nrows a = n /\ ncols a = k /\ length (rows a) = n /\
  forall row, In row (rows a) -> length row = k.

(** ** Definitions used to state the properties of the harmonizer *)

(** The value a series holds for a label that it has once, not-a-number
    otherwise. *)
Definition value_or_nan (s : Series string) (label : string) : float :=
  match getitem s label with
  | Ok (Scalar v) => v
  | _ => nan
  end.

(** The index of the first series, in list order, that has one. *)
Fixpoint first_index (ss : list (Series string)) : list string :=
  match ss with
  | [] => []
  | s :: rest =>
      match index s with
      | [] => first_index rest
      | label :: labels => label :: labels
      end
  end.

(** The series that the loop of line 47 builds for each of the given
    indicators. *)
Definition sequences (unstats_get : string -> observations)
  (inds : list (string * string)) : list (Series string) :=
  map (fun ind => sequence_of (unstats_get (fst ind))) inds.

(** Every answer of the service has one column per reference area: the
    labels of each series are pairwise distinct. *)
Definition distinct_areas (unstats_get : string -> observations)
  (inds : list (string * string)) : Prop :=
  forall ind, In ind inds -> NoDup (index (sequence_of (unstats_get (fst ind)))).

(** What the loop of line 47 keeps true of the table after the given
    indicators: one column per indicator, in order; the row labels of the
    first series that has any; every column the indicator's series read by
    these labels. *)
Definition collected (unstats_get : string -> observations)
  (inds : list (string * string)) (df : DataFrame) : Prop :=
  map fst (df_columns df) = map snd inds /\
  df_index df = first_index (sequences unstats_get inds) /\
  forall ind,
    In ind inds ->
    lookup_column (df_columns df) (snd ind)
    = Some (map (value_or_nan (sequence_of (unstats_get (fst ind)))) (df_index df)).

(** A state of the build with other land areas in place of those of
    line 87. *)
Definition with_area (areas : list float) (st : state) : state :=
  {| countryarea := areas; output_ppp := output_ppp st; stdout := stdout st |}.

(** ** Sample tables *)

(** Three countries with their surface areas, the last one without a PPP
    value. *)
Definition alldata_sample : DataFrame :=
  {| df_index := ["DEU"; "FRA"; "ZZZ"];
     df_columns := [("Surface area (sq. km)", [357; 549; 1]%float);
                    ("PPP", [2; 0.5; nan]%float)] |}.

(** An OUT row with two sectors; the key FRA_B is missing. *)
Definition all_output_sample : Series string :=
  [ ("AUS_A", 1); ("AUS_B", 2); ("DEU_A", 10); ("DEU_B", 20);
    ("FRA_A", 3); ("ZZZ_A", 7); ("ZZZ_B", 8) ]%float.

(** An OUT row in which no label begins with the reference prefix. *)
Definition all_output_no_reference : Series string :=
  [ ("DEU_A", 10); ("DEU_B", 20) ]%float.

(** A country table without rows. *)
Definition alldata_empty : DataFrame :=
  {| df_index := [];
     df_columns := [("Surface area (sq. km)", []); ("PPP", [])] |}.

(** One country whose PPP value is missing. *)
Definition alldata_no_ppp : DataFrame :=
  {| df_index := ["ZZZ"];
     df_columns := [("Surface area (sq. km)", [1]%float); ("PPP", [nan])] |}.

(** Answers of the indicator service: two observations for DEU in the Atlas
    series, the countries in another order in the PPP series, and a third
    country known to the first series only. *)
Definition unstats_sample (name : string) : observations :=
  if String.eqb name "NY_GNP_PCAP_CD"
  then [ (("A", "NY_GNP_PCAP_CD", "DEU")%string, [5; 3]%float);
         (("A", "NY_GNP_PCAP_CD", "FRA")%string, [nan; 8]%float) ]
  else if String.eqb name "NY_GNP_PCAP_PP_CD"
  then [ (("A", "NY_GNP_PCAP_PP_CD", "FRA")%string, [4]%float);
         (("A", "NY_GNP_PCAP_PP_CD", "DEU")%string, [10]%float) ]
  else [ (("A", name, "DEU")%string, [1]%float);
         (("A", name, "FRA")%string, []);
         (("A", name, "USA")%string, [9]%float) ].

(** A country whose PPP value is zero. *)
Definition alldata_zero_ppp : DataFrame :=
  {| df_index := ["DEU"];
     df_columns := [("Surface area (sq. km)", [357]%float); ("PPP", [0]%float)] |}.

(** Answers of the indicator service in which FRA has no Atlas value. *)
Definition unstats_partial (name : string) : observations :=
  if String.eqb name "NY_GNP_PCAP_CD"
  then [ (("A", "NY_GNP_PCAP_CD", "DEU")%string, [5]%float) ]
  else [ (("A", name, "DEU")%string, [10]%float);
         (("A", name, "FRA")%string, [4]%float) ].

(** The sample table without its surface-area column. *)
Definition alldata_no_area : DataFrame :=
  {| df_index := ["DEU"; "FRA"; "ZZZ"];
     df_columns := [("PPP", [2; 0.5; nan]%float)] |}.

(** The sample table with a row label that occurs twice. *)
Definition alldata_repeated : DataFrame :=
  {| df_index := ["DEU"; "DEU"];
     df_columns := [("Surface area (sq. km)", [357; 357]%float);
                    ("PPP", [2; 3]%float)] |}.

(** * Properties *)

(** ** binary64 comparison and not-a-number *)

Module F64Facts.
Import F64.

Lemma is_nan_spec (x : float) : is_nan x = true <-> Prim2SF x = S754_nan.
Proof.
  unfold is_nan. rewrite eqb_spec. unfold SFeqb.
  destruct (Prim2SF x) as [s|s| |s m e]; simpl.
  - split; discriminate.
  - destruct s; split; discriminate.
  - split; reflexivity.
  - destruct s; rewrite Z.compare_refl;
      change (Pos.compare_cont Eq m m) with (Pos.compare m m);
      rewrite Pos.compare_refl; simpl; split; discriminate.
Qed.

Lemma is_nan_false (x : float) : is_nan x = false <-> Prim2SF x <> S754_nan.
Proof.
  rewrite <- is_nan_spec. destruct (is_nan x); split; congruence.
Qed.

Lemma is_nan_eq (x : float) : is_nan x = true -> x = nan.
Proof.
  intros H. apply Prim2SF_inj. apply is_nan_spec in H. rewrite H. reflexivity.
Qed.

Lemma div_nan_r (x y : float) : is_nan y = true -> (x / y)%float = nan.
Proof.
  intros H. apply is_nan_spec in H. apply Prim2SF_inj.
  rewrite div_spec, H. unfold SF64div, SFdiv.
  destruct (Prim2SF x); reflexivity.
Qed.

Ltac by_cases x y :=
  destruct x as [[]|[]| |[] ? ?]; try congruence;
  destruct y as [[]|[]| |[] ? ?]; try congruence;
  cbn [SFleb SFltb SFcompare rank];
  repeat match goal with
    | |- context [Z.compare ?a ?b] => destruct (Z.compare_spec a b)
    | |- context [Pos.compare_cont Eq ?a ?b] =>
        change (Pos.compare_cont Eq a b) with (Pos.compare a b);
        destruct (Pos.compare_spec a b)
    end;
  cbn [CompOpp]; unfold lex_le, lex_lt; cbn [fst snd];
  split; intros; try discriminate; try reflexivity; try lia.

Lemma SFleb_rank (x y : spec_float) :
  x <> S754_nan -> y <> S754_nan ->
  SFleb x y = true <-> lex_le (rank x) (rank y).
Proof. intros Hx Hy. by_cases x y. Qed.

Lemma SFltb_rank (x y : spec_float) :
  x <> S754_nan -> y <> S754_nan ->
  SFltb x y = true <-> lex_lt (rank x) (rank y).
Proof. intros Hx Hy. by_cases x y. Qed.

Lemma leb_refl (x : float) : is_nan x = false -> (x <=? x)%float = true.
Proof.
  intros H. apply is_nan_false in H. rewrite leb_spec.
  apply SFleb_rank; auto. unfold lex_le; lia.
Qed.

Lemma leb_trans (x y z : float) :
  is_nan x = false -> is_nan y = false -> is_nan z = false ->
  (x <=? y)%float = true -> (y <=? z)%float = true -> (x <=? z)%float = true.
Proof.
  intros Hx Hy Hz. apply is_nan_false in Hx, Hy, Hz.
  rewrite !leb_spec, !SFleb_rank by assumption.
  unfold lex_le; lia.
Qed.

Lemma ltb_false_leb (x y : float) :
  is_nan x = false -> is_nan y = false ->
  (x <? y)%float = false -> (y <=? x)%float = true.
Proof.
  intros Hx Hy H. apply is_nan_false in Hx, Hy.
  rewrite leb_spec, SFleb_rank by assumption.
  rewrite ltb_spec in H.
  assert (~ lex_lt (rank (Prim2SF x)) (rank (Prim2SF y))) as N.
  { rewrite <- SFltb_rank by assumption. congruence. }
  unfold lex_le, lex_lt in *; lia.
Qed.

Lemma ltb_true_leb (x y : float) :
  is_nan x = false -> is_nan y = false ->
  (x <? y)%float = true -> (x <=? y)%float = true.
Proof.
  intros Hx Hy H. apply is_nan_false in Hx, Hy.
  rewrite leb_spec, SFleb_rank by assumption.
  rewrite ltb_spec, SFltb_rank in H by assumption.
  unfold lex_le, lex_lt in *; lia.
Qed.

End F64Facts.
Lemma startswith_true (s p : string) :
  Py.startswith s p = true -> exists t, s = (p ++ t)%string.
Proof.
  revert s; induction p as [|a p IH]; intros s H; simpl in *.
  - exists s; reflexivity.
  - destruct s as [|b s]; [discriminate|].
    apply andb_true_iff in H; destruct H as [Hab Hs].
    apply Ascii.eqb_eq in Hab; subst b.
    destruct (IH _ Hs) as [t ->].
    exists t; reflexivity.
Qed.

Lemma startswith_app (p t : string) : Py.startswith (p ++ t)%string p = true.
Proof.
  induction p as [|a p IH]; simpl; [reflexivity|].
  rewrite Ascii.eqb_refl, IH; reflexivity.
Qed.

Lemma startswith_false (s p : string) :
  Py.startswith s p = false -> forall t, s <> (p ++ t)%string.
Proof.
  intros H t ->. rewrite startswith_app in H; discriminate.
Qed.

Lemma sectors_of_extracts (columns : list string) :
  extracts columns (sectors_of columns).
Proof.
  induction columns as [|col cols IH]; cbn [sectors_of].
  - constructor.
  - destruct (Py.startswith col reference_prefix) eqn:E.
    + destruct (startswith_true _ _ E) as [t ->].
      apply extracts_keep; [|exact IH].
      reflexivity.
    + apply extracts_skip; [|exact IH].
      apply startswith_false; exact E.
Qed.

Lemma prefix_app_inj (p s t : string) : (p ++ s)%string = (p ++ t)%string -> s = t.
Proof.
  induction p as [|a p IH]; simpl; intros H; [exact H|].
  inversion H; auto.
Qed.

Lemma extracts_functional (cols secs secs' : list string) :
  extracts cols secs -> extracts cols secs' -> secs = secs'.
Proof.
  intros H; revert secs'.
  induction H as [|col sec cols secs Hc _ IH|col cols secs Hn _ IH];
    intros secs' H'.
  - inversion H'; reflexivity.
  - inversion H' as [|col' sec' cols' secs0 Hc' Hrest|col' cols' secs0 Hn' Hrest]; subst.
    + f_equal; [exact (prefix_app_inj _ _ _ Hc') | apply IH; exact Hrest].
    + exfalso. exact (Hn' sec eq_refl).
  - inversion H' as [|col' sec' cols' secs0 Hc' Hrest|col' cols' secs0 Hn' Hrest]; subst.
    + exfalso. exact (Hn sec' eq_refl).
    + apply IH; exact Hrest.
Qed.

Lemma sectors_of_nil_iff (columns : list string) :
  sectors_of columns = [] <->
  (forall col, In col columns -> forall sec, col <> (reference_prefix ++ sec)%string).
Proof.
  induction columns as [|col cols IH]; cbn [sectors_of].
  - split; [intros _ c [] | reflexivity].
  - destruct (Py.startswith col reference_prefix) eqn:E.
    + split; [discriminate|].
      intros H. destruct (startswith_true _ _ E) as [t Ht].
      exfalso. exact (H col (or_introl eq_refl) t Ht).
    + rewrite IH. split.
      * intros H c [<-|Hin]; [apply startswith_false; exact E | apply H; exact Hin].
      * intros H c Hin. apply H; right; exact Hin.
Qed.

(** C5. Sector extraction returns exactly the remainders of the column labels
    that begin with the reference prefix ["AUS_"], in the order of the
    columns (and no other list does), and it is empty if and only if no
    column label begins with that prefix. *)
Theorem sectors_of_spec (columns : list string) :
  extracts columns (sectors_of columns) /\
  (forall secs, extracts columns secs -> secs = sectors_of columns) /\
  (sectors_of columns = [] <->
   forall col, In col columns -> forall sec, col <> ("AUS_" ++ sec)%string).
Proof.
  split; [apply sectors_of_extracts|]. split.
  - intros secs H. apply (extracts_functional _ _ _ H (sectors_of_extracts columns)).
  - apply sectors_of_nil_iff.
Qed.

(** ** Lookups by label *)

Lemma entries_In (s : Series string) (key : string) (lv : string * float) :
  In lv (entries s key) <-> In lv s /\ fst lv = key.
Proof.
  unfold entries. rewrite filter_In, String.eqb_eq. reflexivity.
Qed.

Lemma entries_nil (s : Series string) (key : string) :
  ~ In key (index s) -> entries s key = [].
Proof.
  intros H. destruct (entries s key) as [|lv rest] eqn:E; [reflexivity|].
  exfalso. apply H.
  assert (Hin : In lv (entries s key)) by (rewrite E; left; reflexivity).
  apply entries_In in Hin. destruct Hin as [Hin <-]. apply in_map. exact Hin.
Qed.

Lemma entries_unique (s : Series string) (key : string) :
  NoDup (index s) -> length (entries s key) <= 1.
Proof.
  induction s as [|[label v] s IH]; cbn [index map fst]; intros Hnd; [cbn; lia|].
  inversion Hnd as [|? ? Hnot Hrest]; subst.
  unfold entries. cbn [filter fst].
  destruct (String.eqb label key) eqn:E.
  - apply String.eqb_eq in E. subst label.
    fold (entries s key). rewrite (entries_nil s key Hnot). cbn. lia.
  - exact (IH Hrest).
Qed.

Lemma getitem_not_In (s : Series string) (key : string) :
  ~ In key (index s) -> getitem s key = Raise (KeyError key).
Proof.
  intros H. unfold getitem. rewrite (entries_nil s key H). reflexivity.
Qed.

Lemma getitem_raises (s : Series string) (key : string) (e : exn) :
  getitem s key = Raise e -> e = KeyError key /\ ~ In key (index s).
Proof.
  unfold getitem. destruct (entries s key) as [|lv [|lv' rest]] eqn:E;
    try discriminate.
  intros H. inversion H. split; [reflexivity|].
  intros Hin. apply in_map_iff in Hin. destruct Hin as [[l v] [Hl Hin]].
  cbn in Hl. subst l.
  assert (Hent : In (key, v) (entries s key)) by (apply entries_In; split; auto).
  rewrite E in Hent. destruct Hent.
Qed.

Lemma getitem_Scalar (s : Series string) (key : string) (v : float) :
  getitem s key = Ok (Scalar v) -> In (key, v) s.
Proof.
  unfold getitem. destruct (entries s key) as [|[l w] [|lv' rest]] eqn:E;
    try discriminate.
  intros H. inversion H; subst.
  assert (Hent : In (l, v) (entries s key)) by (rewrite E; left; reflexivity).
  apply entries_In in Hent. destruct Hent as [Hin Hl]. cbn in Hl. subst l. exact Hin.
Qed.

Lemma getitem_Ok_In (s : Series string) (key : string) (it : item) :
  getitem s key = Ok it -> In key (index s).
Proof.
  intros H. destruct (in_dec string_dec key (index s)) as [Hin|Hnot]; [exact Hin|].
  rewrite (getitem_not_In s key Hnot) in H. discriminate.
Qed.

(** In a series with pairwise distinct labels a lookup is a number or a
    [KeyError]. *)
Lemma getitem_unique (s : Series string) (key : string) :
  NoDup (index s) ->
  (exists v, getitem s key = Ok (Scalar v)) \/
  getitem s key = Raise (KeyError key).
Proof.
  intros Hnd. pose proof (entries_unique s key Hnd) as Hlen. unfold getitem.
  destruct (entries s key) as [|lv [|lv' rest]]; cbn in Hlen.
  - right. reflexivity.
  - left. eexists. reflexivity.
  - lia.
Qed.

Lemma getitem_In (s : Series string) (key : string) :
  NoDup (index s) -> In key (index s) -> exists v, getitem s key = Ok (Scalar v).
Proof.
  intros Hnd Hin. destruct (getitem_unique s key Hnd) as [H|H]; [exact H|].
  apply getitem_raises in H. destruct H as [_ H]. contradiction.
Qed.

Lemma getitem_NoDup (s : Series string) (key : string) (v : float) :
  NoDup (index s) -> In (key, v) s -> getitem s key = Ok (Scalar v).
Proof.
  intros Hnd Hin.
  destruct (getitem_In s key Hnd) as [w Hw].
  { apply (in_map fst) in Hin. exact Hin. }
  rewrite Hw. do 2 f_equal.
  apply getitem_Scalar in Hw.
  clear - Hnd Hin Hw. induction s as [|[l x] s IH]; [destruct Hin|].
  cbn [index map fst] in Hnd. inversion Hnd as [|? ? Hnot Hrest]; subst.
  destruct Hin as [Hin|Hin], Hw as [Hw|Hw].
  - congruence.
  - inversion Hin; subst. exfalso. apply Hnot. apply (in_map fst) in Hw. exact Hw.
  - inversion Hw; subst. exfalso. apply Hnot. apply (in_map fst) in Hin. exact Hin.
  - exact (IH Hrest Hin Hw).
Qed.

Lemma index_align (labels : list string) :
  forall vals, index (align labels vals) = labels.
Proof.
  induction labels as [|label labels IH]; intros vals; simpl; [reflexivity|].
  f_equal. apply IH.
Qed.

Lemma column_index (df : DataFrame) (name : string) (s : Series string) :
  column df name = Ok s -> index s = df_index df.
Proof.
  unfold column. destruct (lookup_column (df_columns df) name); [|discriminate].
  intros H; inversion H. apply index_align.
Qed.

(** ** The shape of the matrix under construction *)

Lemma list_set_middle {A : Type} (p q : list A) (x v : A) :
  list_set (p ++ x :: q) (length p) v = p ++ v :: q.
Proof.
  induction p as [|y p IH]; simpl; [reflexivity | now rewrite IH].
Qed.

Lemma list_set_length {A : Type} (l : list A) :
  forall i v, length (list_set l i v) = length l.
Proof.
  induction l as [|x l IH]; intros [|i] v; cbn; auto.
Qed.

Lemma list_set_In {A : Type} (l : list A) :
  forall i v x, In x (list_set l i v) -> In x l \/ (x = v /\ i < length l).
Proof.
  induction l as [|y l IH]; intros [|i] v x; cbn; try tauto.
  - intros [<-|H]; [right; split; [reflexivity | lia] | left; right; exact H].
  - intros [<-|H]; [left; left; reflexivity|].
    destruct (IH i v x H) as [Hin|[-> Hlt]]; [left; right; exact Hin|].
    right. split; [reflexivity | lia].
Qed.

Lemma zeros_shape (n k : nat) : has_shape n k (zeros n k).
Proof.
  unfold has_shape, zeros. cbn. repeat split; try apply repeat_length.
  intros row Hrow. apply repeat_spec in Hrow. subst row. apply repeat_length.
Qed.

Lemma setitem_shape (n k : nat) (a a' : ndarray) (c s : nat) (v : float) :
  has_shape n k a -> setitem a c s v = Ok a' -> has_shape n k a'.
Proof.
  intros [Hn [Hk [Hlen Hrows]]]. unfold setitem.
  destruct (Nat.ltb c (nrows a) && Nat.ltb s (ncols a)); [|discriminate].
  intros H. inversion H; subst a'; clear H. unfold has_shape. cbn.
  split; [exact Hn|]. split; [exact Hk|].
  split; [rewrite list_set_length; exact Hlen|].
  intros row Hrow. apply list_set_In in Hrow.
  destruct Hrow as [Hrow|[-> Hlt]]; [exact (Hrows row Hrow)|].
  rewrite list_set_length. apply Hrows. apply nth_In. exact Hlt.
Qed.

Lemma for_each_preserves {A S : Type} (P : S -> Prop) (body : S -> A -> result S)
  (l : list A) :
  (forall st x st', P st -> body st x = Ok st' -> P st') ->
  forall st st', P st -> for_each body l st = Ok st' -> P st'.
Proof.
  intros Hstep. induction l as [|x l IH]; intros st st' HP H; cbn [for_each] in H.
  - inversion H; subst. exact HP.
  - destruct (body st x) as [st1|e] eqn:E; cbn [bind] in H; [|discriminate].
    exact (IH st1 st' (Hstep st x st1 HP E) H).
Qed.

Lemma assign_cell_shape (alldata : DataFrame) (all_output : Series string)
  (n k c : nat) (country : string) (st st' : state) (ss : nat * string) :
  has_shape n k (output_ppp st) ->
  assign_cell alldata all_output c country st ss = Ok st' ->
  has_shape n k (output_ppp st').
Proof.
  intros Hshape. unfold assign_cell.
  destruct (ppp_output alldata all_output country (snd ss)) as [v|[]];
    try discriminate.
  - destruct (setitem (output_ppp st) c (fst ss) v) as [a|e] eqn:E; cbn [bind];
      [|discriminate].
    intros H. inversion H; subst st'. cbn [output_ppp].
    exact (setitem_shape n k _ _ _ _ _ Hshape E).
  - destruct (setitem (output_ppp st) c (fst ss) nan) as [a|e] eqn:E; cbn [bind];
      [|discriminate].
    intros H. inversion H; subst st'. cbn [output_ppp].
    exact (setitem_shape n k _ _ _ _ _ Hshape E).
Qed.

(** Whenever the build returns, the matrix has the shape that line 101 gave
    it: one row per country, one cell per sector in every row. *)
Lemma build_shape (alldata : DataFrame) (all_output : Series string) (st : state) :
  build alldata all_output = Ok st ->
  has_shape (length (df_index alldata)) (length (sectors_of (index all_output)))
    (output_ppp st).
Proof.
  unfold build.
  destruct (column alldata "Surface area (sq. km)") as [areas|e]; cbn [bind];
    [|discriminate].
  apply (for_each_preserves
           (fun st => has_shape (length (df_index alldata))
                        (length (sectors_of (index all_output))) (output_ppp st))).
  - intros st0 cc st1 Hshape. unfold fill_row.
    apply (for_each_preserves
             (fun st => has_shape (length (df_index alldata))
                          (length (sectors_of (index all_output))) (output_ppp st)));
      [|exact Hshape].
    intros st2 ss st3. apply assign_cell_shape.
  - cbn [output_ppp]. apply zeros_shape.
Qed.

(** ** The loops of the design matrix builder *)

Lemma enumerate_from_cons {A : Type} (start : nat) (x : A) (l : list A) :
  enumerate_from start (x :: l) = (start, x) :: enumerate_from (S start) l.
Proof. reflexivity. Qed.

Section Loops.

Variable alldata : DataFrame.
Variable all_output : Series string.

(** The row labels of the table and the labels of the total-output row are
    pairwise distinct. *)
Hypothesis countries_distinct : NoDup (df_index alldata).
Hypothesis labels_distinct : NoDup (index all_output).

(** With distinct labels the right-hand side of line 105 raises nothing but
    a [KeyError]. *)
Lemma ppp_output_raises (country sector : string) (e : exn) :
  ppp_output alldata all_output country sector = Raise e -> exists key, e = KeyError key.
Proof.
  unfold ppp_output, column.
  destruct (getitem_unique all_output (composite country sector) labels_distinct)
    as [[o Ho]|Ho]; rewrite Ho; cbn [bind].
  - destruct (lookup_column (df_columns alldata) "PPP") as [vals|]; cbn [bind].
    + destruct (getitem_unique (align (df_index alldata) vals) country) as [[p Hp]|Hp].
      { rewrite index_align. exact countries_distinct. }
      * rewrite Hp. cbn [bind]. discriminate.
      * rewrite Hp. cbn [bind]. intros H. inversion H. eexists. reflexivity.
    + intros H. inversion H. eexists. reflexivity.
  - intros H. inversion H. eexists. reflexivity.
Qed.

(** The inner loop, started at any sector of a row: it leaves the cells
    already written and the other rows as they are. *)
Lemma fill_row_from (country : string) (areas : list float) (n k : nat)
  (above below : list (list float)) (rest : list string) :
  forall (done : list float) (out : list string),
    length above < n ->
    length done + length rest = k ->
    for_each (assign_cell alldata all_output (length above) country)
      (enumerate_from (length done) rest)
      {| countryarea := areas;
         output_ppp := {| nrows := n; ncols := k;
                          rows := above ++ (done ++ repeat 0%float (length rest)) :: below |};
         stdout := out |}
    = Ok {| countryarea := areas;
            output_ppp := {| nrows := n; ncols := k;
                             rows := above ++ (done ++ map (cell_value alldata all_output country) rest)
                                       :: below |};
            stdout := out ++ flat_map (cell_lines alldata all_output country) rest |}.
Proof.
  induction rest as [|sector rest IH]; intros done out Hn Hk.
  - simpl. rewrite !app_nil_r. reflexivity.
  - rewrite enumerate_from_cons. cbn [for_each].
    assert (Hset : forall v,
      setitem {| nrows := n; ncols := k;
                 rows := above ++ (done ++ repeat 0%float (length (sector :: rest))) :: below |}
        (length above) (length done) v
      = Ok {| nrows := n; ncols := k;
              rows := above ++ ((done ++ [v]) ++ repeat 0%float (length rest)) :: below |}).
    { intros v. unfold setitem. cbn [nrows ncols rows].
      replace (Nat.ltb (length above) n) with true by (symmetry; apply Nat.ltb_lt; lia).
      replace (Nat.ltb (length done) k) with true
        by (symmetry; apply Nat.ltb_lt; simpl in Hk; lia).
      cbn [andb]. rewrite nth_middle, list_set_middle.
      cbn [length repeat]. rewrite list_set_middle, <- app_assoc. reflexivity. }
    unfold assign_cell at 1. cbn [fst snd output_ppp stdout countryarea].
    unfold cell_value, cell_lines. cbn [map flat_map].
    destruct (ppp_output alldata all_output country sector) as [v|e] eqn:E.
    + rewrite Hset. cbn [bind].
      specialize (IH (done ++ [v]) out Hn).
      rewrite last_length in IH. rewrite IH by (simpl in Hk; lia).
      rewrite <- !app_assoc. reflexivity.
    + destruct (ppp_output_raises _ _ _ E) as [key ->].
      rewrite Hset. cbn [bind].
      specialize (IH (done ++ [nan]) (out ++ [composite country sector]) Hn).
      rewrite last_length in IH. rewrite IH by (simpl in Hk; lia).
      rewrite <- !app_assoc. reflexivity.
Qed.

(** The inner loop on a row of zeros. *)
Lemma fill_row_zeros (country : string) (areas : list float) (n : nat)
  (above below : list (list float)) (sectors : list string) (out : list string) :
  length above < n ->
  fill_row alldata all_output sectors
    {| countryarea := areas;
       output_ppp := {| nrows := n; ncols := length sectors;
                        rows := above ++ repeat 0%float (length sectors) :: below |};
       stdout := out |}
    (length above, country)
  = Ok {| countryarea := areas;
          output_ppp := {| nrows := n; ncols := length sectors;
                           rows := above ++ map (cell_value alldata all_output country) sectors
                                     :: below |};
          stdout := out ++ flat_map (cell_lines alldata all_output country) sectors |}.
Proof.
  intros Hn. unfold fill_row, enumerate. cbn [fst snd].
  exact (fill_row_from country areas n (length sectors) above below sectors [] out Hn eq_refl).
Qed.

(** The outer loop, started at any country. *)
Lemma fill_rows_from (sectors : list string) (areas : list float) (n : nat)
  (rest : list string) :
  forall (above : list (list float)) (out : list string),
    length above + length rest = n ->
    for_each (fill_row alldata all_output sectors)
      (enumerate_from (length above) rest)
      {| countryarea := areas;
         output_ppp := {| nrows := n; ncols := length sectors;
                          rows := above ++ repeat (repeat 0%float (length sectors)) (length rest) |};
         stdout := out |}
    = Ok {| countryarea := areas;
            output_ppp :=
              {| nrows := n; ncols := length sectors;
                 rows := above ++ map (fun country =>
                                         map (cell_value alldata all_output country) sectors) rest |};
            stdout := out ++ flat_map (fun country =>
                                         flat_map (cell_lines alldata all_output country) sectors)
                               rest |}.
Proof.
  induction rest as [|country rest IH]; intros above out Hn.
  - simpl. rewrite !app_nil_r. reflexivity.
  - rewrite enumerate_from_cons. cbn [for_each length repeat map flat_map].
    rewrite fill_row_zeros by (simpl in Hn; lia). cbn [bind].
    specialize (IH (above ++ [map (cell_value alldata all_output country) sectors])
                   (out ++ flat_map (cell_lines alldata all_output country) sectors)).
    rewrite last_length, <- !app_assoc in IH. cbn [app] in IH.
    rewrite IH by (simpl in Hn; lia).
    reflexivity.
Qed.

(** On a table with the surface-area column and distinct labels the build
    does not raise: it ends with every cell written once and one line
    printed per [KeyError], in the order of the loops. *)
Lemma build_result (areas : Series string) :
  column alldata "Surface area (sq. km)" = Ok areas ->
  build alldata all_output
  = Ok {| countryarea := values areas;
          output_ppp :=
            {| nrows := length (df_index alldata);
               ncols := length (sectors_of (index all_output));
               rows := map (fun country =>
                              map (cell_value alldata all_output country)
                                  (sectors_of (index all_output)))
                           (df_index alldata) |};
          stdout := flat_map (fun country =>
                                flat_map (cell_lines alldata all_output country)
                                         (sectors_of (index all_output)))
                             (df_index alldata) |}.
Proof.
  intros Hareas. unfold build, enumerate, zeros. rewrite Hareas. cbn [bind].
  exact (fill_rows_from (sectors_of (index all_output)) (values areas) _
           (df_index alldata) [] [] eq_refl).
Qed.

Lemma build_cell (areas : Series string) (c s : nat) (country sector : string) :
  column alldata "Surface area (sq. km)" = Ok areas ->
  nth_error (df_index alldata) c = Some country ->
  nth_error (sectors_of (index all_output)) s = Some sector ->
  exists st,
    build alldata all_output = Ok st /\
    cell (output_ppp st) c s = Some (cell_value alldata all_output country sector).
Proof.
  intros Hareas Hc Hs. eexists. split; [apply (build_result areas Hareas)|].
  unfold cell. cbn [output_ppp rows].
  erewrite map_nth_error by exact Hc. apply map_nth_error. exact Hs.
Qed.

End Loops.

(** ** Boolean indexing and the rows it keeps *)

Lemma flatnonzero_from_In (mask : list bool) :
  forall start i,
    In i (flatnonzero_from start mask) <->
    start <= i /\ nth_error mask (i - start) = Some true.
Proof.
  induction mask as [|b mask IH]; intros start i; cbn [flatnonzero_from].
  - split; [intros [] | intros [_ H]]. destruct (i - start); discriminate.
  - assert (Hrec : In i (flatnonzero_from (S start) mask) <->
                   S start <= i /\ nth_error (b :: mask) (i - start) = Some true).
    { rewrite IH. split; intros [Hle H]; split; try lia.
      - replace (i - start) with (S (i - S start)) by lia. exact H.
      - replace (i - start) with (S (i - S start)) in H by lia. exact H. }
    destruct b; cbn [In]; rewrite Hrec.
    + split.
      * intros [<-|[Hle H]]; [|split; [lia|exact H]].
        split; [lia|]. rewrite Nat.sub_diag. reflexivity.
      * intros [Hle H]. destruct (Nat.eq_dec start i) as [->|Hne]; [left; reflexivity|].
        right. split; [lia | exact H].
    + split.
      * intros [Hle H]. split; [lia | exact H].
      * intros [Hle H]. split; [|exact H].
        destruct (Nat.eq_dec start i) as [->|Hne]; [|lia].
        rewrite Nat.sub_diag in H. discriminate.
Qed.

Lemma flatnonzero_from_sorted (mask : list bool) :
  forall start, StronglySorted lt (flatnonzero_from start mask).
Proof.
  induction mask as [|b mask IH]; intros start; cbn [flatnonzero_from].
  - constructor.
  - destruct b; [|apply IH].
    constructor; [apply IH|].
    apply Forall_forall. intros i Hi. apply flatnonzero_from_In in Hi. lia.
Qed.

Lemma select_flatnonzero {A : Type} (d : A) (mask : list bool) :
  forall (l : list A) (start : nat),
    length mask = length l ->
    select mask l = map (fun i => nth (i - start) l d) (flatnonzero_from start mask).
Proof.
  induction mask as [|b mask IH]; intros l start Hlen.
  - reflexivity.
  - destruct l as [|x l]; [discriminate|].
    cbn [select flatnonzero_from].
    assert (Hrec : select mask l
                   = map (fun i => nth (i - start) (x :: l) d)
                         (flatnonzero_from (S start) mask)).
    { rewrite (IH l (S start)) by (simpl in Hlen; lia).
      apply map_ext_in. intros i Hi. apply flatnonzero_from_In in Hi.
      replace (i - start) with (S (i - S start)) by lia. reflexivity. }
    destruct b; [|exact Hrec].
    cbn [map]. rewrite Nat.sub_diag. cbn [nth]. f_equal. exact Hrec.
Qed.

Lemma existsb_is_nan_false (row : list float) :
  existsb is_nan row = false <-> resolved row.
Proof.
  unfold resolved. induction row as [|v row IH]; simpl.
  - split; [intros _ v [] | reflexivity].
  - rewrite orb_false_iff, IH. split.
    + intros [Hv H] w [<-|Hw]; [exact Hv | apply H; exact Hw].
    + intros H. split; [apply H; left; reflexivity | intros w Hw; apply H; right; exact Hw].
Qed.

(** Line 113 keeps, in their order, the rows at the positions
    [retained_rows]. *)
Lemma remove_missing_rows (a : ndarray) :
  rows (remove_missing a) = map (fun i => nth i (rows a) []) (retained_rows a).
Proof.
  unfold remove_missing, boolean_index, retained_rows. cbn [rows].
  rewrite (select_flatnonzero [] (invert (isnan_any a)) (rows a) 0).
  - apply map_ext. intros i. rewrite Nat.sub_0_r. reflexivity.
  - unfold invert, isnan_any. rewrite !length_map. reflexivity.
Qed.

(** A row is kept exactly when none of its cells is unresolved. *)
Lemma retained_rows_spec (a : ndarray) (i : nat) (row : list float) :
  nth_error (rows a) i = Some row ->
  In i (retained_rows a) <-> resolved row.
Proof.
  intros Hrow. unfold retained_rows. rewrite flatnonzero_from_In, Nat.sub_0_r.
  unfold invert, isnan_any. rewrite !nth_error_map, Hrow. cbn [option_map].
  rewrite <- existsb_is_nan_false.
  destruct (existsb is_nan row); cbn [negb]; split.
  - intros [_ H]; inversion H.
  - discriminate.
  - reflexivity.
  - intros _. split; [lia | reflexivity].
Qed.

Lemma retained_rows_sorted (a : ndarray) : StronglySorted lt (retained_rows a).
Proof. apply flatnonzero_from_sorted. Qed.

Lemma remove_missing_ncols (a : ndarray) : ncols (remove_missing a) = ncols a.
Proof. reflexivity. Qed.

(** ** Design matrix: cells, diagnostics, removed rows *)

(** C1. On a table with pairwise distinct row labels and the surface-area
    column of line 87, and a total-output row with pairwise distinct labels:
    for a country [c] of the harmonized table's index and a sector [s] of the
    extracted sector list, when the composite key country_sector is in the
    total-output row and the PPP value of the country is defined and not
    zero, the build returns and the cell [(c, s)] of the matrix before the
    row filter is [totalOutput[key] / PPP[country]]. *)
Theorem design_matrix_cell (alldata : DataFrame) (all_output areas : Series string)
  (c s : nat) (country sector : string) (ppp : Series string) (o p : float) :
  NoDup (df_index alldata) ->
  NoDup (index all_output) ->
  column alldata "Surface area (sq. km)" = Ok areas ->
  nth_error (df_index alldata) c = Some country ->
  nth_error (sectors_of (index all_output)) s = Some sector ->
  getitem all_output (country ++ "_" ++ sector)%string = Ok (Scalar o) ->
  column alldata "PPP" = Ok ppp ->
  getitem ppp country = Ok (Scalar p) ->
  is_nan p = false ->
  (p =? 0)%float = false ->
  exists st,
    build alldata all_output = Ok st /\
    cell (output_ppp st) c s = Some (o / p)%float.
Proof.
  intros Hcountries Hlabels Hareas Hc Hs Ho Hppp Hp _ _.
  destruct (build_cell alldata all_output Hcountries Hlabels areas c s country sector
              Hareas Hc Hs) as [st [Hb Hcell]].
  exists st. split; [exact Hb|].
  rewrite Hcell. f_equal.
  unfold cell_value, ppp_output, composite.
  rewrite Ho. cbn [bind]. rewrite Hppp. cbn [bind]. rewrite Hp. reflexivity.
Qed.

Lemma sample_countries_distinct : NoDup (df_index alldata_sample).
Proof. cbn. repeat constructor; cbn; intuition discriminate. Qed.

Lemma sample_labels_distinct : NoDup (index all_output_sample).
Proof. cbn. repeat constructor; cbn; intuition discriminate. Qed.

Lemma design_matrix_cell_witness :
  exists st,
    build alldata_sample all_output_sample = Ok st /\
    cell (output_ppp st) 0 1 = Some (20 / 2)%float.
Proof.
  apply (design_matrix_cell alldata_sample all_output_sample
           [("DEU", 357); ("FRA", 549); ("ZZZ", 1)]%float 0 1 "DEU" "B"
           [("DEU", 2); ("FRA", 0.5); ("ZZZ", nan)]%float 20%float 2%float
           sample_countries_distinct sample_labels_distinct);
    reflexivity.
Defined.

Lemma missing_key_raises (alldata : DataFrame) (all_output : Series string)
  (country sector : string) :
  ~ In (composite country sector) (index all_output) ->
  ppp_output alldata all_output country sector
  = Raise (KeyError (composite country sector)).
Proof.
  intros H. unfold ppp_output. rewrite (getitem_not_In _ _ H). reflexivity.
Qed.

Lemma printed_line (alldata : DataFrame) (all_output areas : Series string)
  (country sector : string) :
  NoDup (df_index alldata) ->
  NoDup (index all_output) ->
  column alldata "Surface area (sq. km)" = Ok areas ->
  In country (df_index alldata) ->
  In sector (sectors_of (index all_output)) ->
  cell_lines alldata all_output country sector = [composite country sector] ->
  forall st, build alldata all_output = Ok st ->
  In (composite country sector) (stdout st).
Proof.
  intros Hcountries Hlabels Hareas Hc Hs Hline st Hb.
  rewrite (build_result alldata all_output Hcountries Hlabels areas Hareas) in Hb.
  inversion Hb; subst st.
  cbn [stdout]. apply in_flat_map. exists country. split; [exact Hc|].
  apply in_flat_map. exists sector. split; [exact Hs|].
  rewrite Hline. left. reflexivity.
Qed.

(** C3. On a table with pairwise distinct row labels and the surface-area
    column of line 87, and a total-output row with pairwise distinct labels,
    a composite key that is absent from the total-output row does not stop
    the build: the build returns, the cell holds not-a-number, the line
    printed for it is the key itself, and line 113 keeps, in order, exactly
    the rows without an unresolved cell, so the row of that country is not
    among them. *)
Theorem missing_key_policy (alldata : DataFrame) (all_output areas : Series string)
  (c s : nat) (country sector : string) :
  NoDup (df_index alldata) ->
  NoDup (index all_output) ->
  column alldata "Surface area (sq. km)" = Ok areas ->
  nth_error (df_index alldata) c = Some country ->
  nth_error (sectors_of (index all_output)) s = Some sector ->
  ~ In (country ++ "_" ++ sector)%string (index all_output) ->
  exists st,
    build alldata all_output = Ok st /\
    cell (output_ppp st) c s = Some nan /\
    In (country ++ "_" ++ sector)%string (stdout st) /\
    rows (remove_missing (output_ppp st))
    = map (fun i => nth i (rows (output_ppp st)) []) (retained_rows (output_ppp st)) /\
    StronglySorted lt (retained_rows (output_ppp st)) /\
    (forall i row,
        nth_error (rows (output_ppp st)) i = Some row ->
        (In i (retained_rows (output_ppp st)) <-> resolved row)) /\
    ~ In c (retained_rows (output_ppp st)).
Proof.
  intros Hcountries Hlabels Hareas Hc Hs Hkey.
  pose proof (missing_key_raises alldata all_output country sector Hkey) as Hraise.
  destruct (build_cell alldata all_output Hcountries Hlabels areas c s country sector
              Hareas Hc Hs) as [st [Hb Hcell]].
  assert (Hnan : cell (output_ppp st) c s = Some nan).
  { rewrite Hcell. unfold cell_value. rewrite Hraise. reflexivity. }
  exists st. split; [exact Hb|]. split; [exact Hnan|]. split.
  - apply (printed_line alldata all_output areas country sector Hcountries Hlabels Hareas).
    + eapply nth_error_In; exact Hc.
    + eapply nth_error_In; exact Hs.
    + unfold cell_lines. rewrite Hraise. reflexivity.
    + exact Hb.
  - split; [apply remove_missing_rows|].
    split; [apply retained_rows_sorted|].
    split; [intros i row Hrow; apply retained_rows_spec; exact Hrow|].
    unfold cell in Hnan.
    destruct (nth_error (rows (output_ppp st)) c) as [row|] eqn:Hrow; [|discriminate].
    rewrite (retained_rows_spec _ _ _ Hrow). intros Hres.
    apply nth_error_In in Hnan. apply Hres in Hnan. discriminate.
Qed.

Lemma missing_key_policy_witness :
  exists st,
    build alldata_sample all_output_sample = Ok st /\
    cell (output_ppp st) 1 1 = Some nan /\
    In "FRA_B"%string (stdout st) /\
    rows (remove_missing (output_ppp st))
    = map (fun i => nth i (rows (output_ppp st)) []) (retained_rows (output_ppp st)) /\
    StronglySorted lt (retained_rows (output_ppp st)) /\
    (forall i row,
        nth_error (rows (output_ppp st)) i = Some row ->
        (In i (retained_rows (output_ppp st)) <-> resolved row)) /\
    ~ In 1 (retained_rows (output_ppp st)).
Proof.
  apply (missing_key_policy alldata_sample all_output_sample
           [("DEU", 357); ("FRA", 549); ("ZZZ", 1)]%float 1 1 "FRA" "B"
           sample_countries_distinct sample_labels_distinct).
  - reflexivity.
  - reflexivity.
  - reflexivity.
  - cbn. intros H.
    repeat (destruct H as [H|H]; [discriminate|]). exact H.
Defined.

(** ** Countries without a PPP value *)

Lemma missing_ppp_value (alldata : DataFrame) (all_output : Series string)
  (country sector : string) (ppp : Series string) (p : float) :
  NoDup (index all_output) ->
  column alldata "PPP" = Ok ppp ->
  getitem ppp country = Ok (Scalar p) ->
  is_nan p = true ->
  cell_value alldata all_output country sector = nan.
Proof.
  intros Hlabels Hppp Hp Hnan. unfold cell_value, ppp_output.
  destruct (getitem_unique all_output (composite country sector) Hlabels)
    as [[o Ho]|Ho]; rewrite Ho; [|reflexivity].
  cbn [bind]. rewrite Hppp. cbn [bind]. rewrite Hp. cbn [bind].
  apply F64Facts.div_nan_r. exact Hnan.
Qed.

(** With a PPP column, a line is printed only for a key that is absent from
    the total-output row. *)
Lemma printed_only_missing (alldata : DataFrame) (all_output areas : Series string)
  (ppp : Series string) (st : state) (line : string) :
  NoDup (df_index alldata) ->
  NoDup (index all_output) ->
  column alldata "Surface area (sq. km)" = Ok areas ->
  column alldata "PPP" = Ok ppp ->
  build alldata all_output = Ok st ->
  In line (stdout st) ->
  ~ In line (index all_output).
Proof.
  intros Hcountries Hlabels Hareas Hppp Hb Hline Hin.
  rewrite (build_result alldata all_output Hcountries Hlabels areas Hareas) in Hb.
  inversion Hb; subst st.
  cbn [stdout] in Hline.
  apply in_flat_map in Hline. destruct Hline as [country [Hc Hline]].
  apply in_flat_map in Hline. destruct Hline as [sector [Hs Hline]].
  unfold cell_lines, ppp_output in Hline.
  destruct (getitem all_output (composite country sector)) as [o|e] eqn:Eo.
  - cbn [bind] in Hline. rewrite Hppp in Hline. cbn [bind] in Hline.
    destruct (getitem_In ppp country) as [p Hp].
    { rewrite (column_index _ _ _ Hppp). exact Hcountries. }
    { rewrite (column_index _ _ _ Hppp). exact Hc. }
    rewrite Hp in Hline. cbn [bind] in Hline.
    destruct o; destruct Hline.
  - cbn [bind] in Hline. destruct e; cbn [In] in Hline; try contradiction.
    destruct Hline as [<-|[]].
    apply getitem_raises in Eo. destruct Eo as [_ Hnot]. contradiction.
Qed.

(** C10, as the script behaves. On a table with pairwise distinct row
    labels and the surface-area column of line 87, and a total-output row
    with pairwise distinct labels: for a country whose PPP value is
    not-a-number, every cell of its row holds not-a-number, also where the
    composite key is in the total-output row; no line is printed for such a
    key; and, when the sector list is not empty, line 113 does not keep the
    row. *)
Theorem missing_ppp_row (alldata : DataFrame) (all_output areas : Series string)
  (c : nat) (country : string) (ppp : Series string) (p : float) :
  NoDup (df_index alldata) ->
  NoDup (index all_output) ->
  column alldata "Surface area (sq. km)" = Ok areas ->
  nth_error (df_index alldata) c = Some country ->
  column alldata "PPP" = Ok ppp ->
  getitem ppp country = Ok (Scalar p) ->
  is_nan p = true ->
  exists st,
    build alldata all_output = Ok st /\
    (forall s sector,
        nth_error (sectors_of (index all_output)) s = Some sector ->
        cell (output_ppp st) c s = Some nan) /\
    (forall sector,
        In sector (sectors_of (index all_output)) ->
        In (country ++ "_" ++ sector)%string (index all_output) ->
        ~ In (country ++ "_" ++ sector)%string (stdout st)) /\
    rows (remove_missing (output_ppp st))
    = map (fun i => nth i (rows (output_ppp st)) []) (retained_rows (output_ppp st)) /\
    (sectors_of (index all_output) <> [] ->
     ~ In c (retained_rows (output_ppp st))).
Proof.
  intros Hcountries Hlabels Hareas Hc Hppp Hp Hnan.
  pose proof (build_result alldata all_output Hcountries Hlabels areas Hareas) as Hbuild.
  assert (Hcells : forall st, build alldata all_output = Ok st ->
            forall s sector,
              nth_error (sectors_of (index all_output)) s = Some sector ->
              cell (output_ppp st) c s = Some nan).
  { intros st Hb s sector Hs.
    destruct (build_cell alldata all_output Hcountries Hlabels areas c s country sector
                Hareas Hc Hs) as [st' [Hb' Hcell]].
    rewrite Hb in Hb'. inversion Hb'; subst st'.
    rewrite Hcell. f_equal. eapply missing_ppp_value; eassumption. }
  eexists. split; [exact Hbuild|].
  split; [apply Hcells; exact Hbuild|].
  split.
  { intros sector _ Hin Hline.
    exact (printed_only_missing alldata all_output areas ppp _ _ Hcountries Hlabels
             Hareas Hppp Hbuild Hline Hin). }
  split; [apply remove_missing_rows|].
  intros Hsec.
  destruct (sectors_of (index all_output)) as [|sector0 rest] eqn:E; [congruence|].
  pose proof (Hcells _ Hbuild 0 sector0) as H0.
  rewrite ?E in H0. specialize (H0 eq_refl).
  unfold cell in H0.
  match type of H0 with
  | match nth_error ?rs c with _ => _ end = _ =>
      destruct (nth_error rs c) as [row|] eqn:Hrow; [|discriminate]
  end.
  rewrite (retained_rows_spec _ _ _ Hrow). intros Hres.
  apply nth_error_In in H0. apply Hres in H0. discriminate.
Qed.

Lemma missing_ppp_row_witness :
  exists st,
    build alldata_sample all_output_sample = Ok st /\
    (forall s sector,
        nth_error (sectors_of (index all_output_sample)) s = Some sector ->
        cell (output_ppp st) 2 s = Some nan) /\
    (forall sector,
        In sector (sectors_of (index all_output_sample)) ->
        In ("ZZZ" ++ "_" ++ sector)%string (index all_output_sample) ->
        ~ In ("ZZZ" ++ "_" ++ sector)%string (stdout st)) /\
    rows (remove_missing (output_ppp st))
    = map (fun i => nth i (rows (output_ppp st)) []) (retained_rows (output_ppp st)) /\
    (sectors_of (index all_output_sample) <> [] ->
     ~ In 2 (retained_rows (output_ppp st))).
Proof.
  apply (missing_ppp_row alldata_sample all_output_sample
           [("DEU", 357); ("FRA", 549); ("ZZZ", 1)]%float 2 "ZZZ"
           [("DEU", 2); ("FRA", 0.5); ("ZZZ", nan)]%float nan
           sample_countries_distinct sample_labels_distinct);
    reflexivity.
Defined.

(** C10 as stated does not hold when no column label begins with the
    reference prefix: on a table with one country, whose row labels and
    total-output labels are distinct and which has the surface-area column,
    the country's PPP value is not-a-number and its row, which has no cell,
    is kept by line 113. *)
Lemma missing_ppp_row_kept_without_sectors :
  df_index alldata_no_ppp = ["ZZZ"%string] /\
  index all_output_no_reference = ["DEU_A"; "DEU_B"]%string /\
  column alldata_no_ppp "Surface area (sq. km)" = Ok [("ZZZ"%string, 1%float)] /\
  (exists ppp p,
      column alldata_no_ppp "PPP" = Ok ppp /\
      getitem ppp "ZZZ" = Ok (Scalar p) /\ is_nan p = true) /\
  exists st,
    build alldata_no_ppp all_output_no_reference = Ok st /\
    invert (isnan_any (output_ppp st)) = [true] /\
    In 0 (retained_rows (output_ppp st)) /\
    remove_missing (output_ppp st) = {| nrows := 1; ncols := 0; rows := [[]] |}.
Proof.
  split; [reflexivity|]. split; [reflexivity|]. split; [reflexivity|]. split.
  - exists [("ZZZ"%string, nan)], nan. repeat split; reflexivity.
  - eexists. split; [reflexivity|]. split; [reflexivity|].
    split; [left; reflexivity | reflexivity].
Qed.

(** ** What reaches the estimator *)

Lemma estimator_input_ncols (alldata : DataFrame) (all_output : Series string)
  (out : list string) (A : ndarray) (b : list float) :
  estimator_input alldata all_output = Ok (out, A, b) ->
  ncols A = length (sectors_of (index all_output)) - 1.
Proof.
  unfold estimator_input.
  destruct (build alldata all_output) as [st|e] eqn:Hb; cbn [bind]; [|discriminate].
  destruct (build_shape alldata all_output st Hb) as [_ [Hk _]].
  destruct (last_column _) as [target|e]; cbn [bind]; [|discriminate].
  intros H; inversion H; subst.
  cbn [all_but_last_column ncols remove_missing boolean_index].
  rewrite Hk. lia.
Qed.

Lemma for_each_idle {A S : Type} (body : S -> A -> result S) (l : list A) :
  (forall st x, body st x = Ok st) -> forall st, for_each body l st = Ok st.
Proof.
  intros Hbody. induction l as [|x l IH]; intros st; cbn [for_each]; [reflexivity|].
  rewrite Hbody. cbn [bind]. apply IH.
Qed.

(** Without sectors the loops write nothing. *)
Lemma build_without_sectors (alldata : DataFrame) (all_output areas : Series string) :
  column alldata "Surface area (sq. km)" = Ok areas ->
  sectors_of (index all_output) = [] ->
  build alldata all_output
  = Ok {| countryarea := values areas;
          output_ppp := zeros (length (df_index alldata)) 0;
          stdout := [] |}.
Proof.
  intros Hareas Hsec. unfold build. rewrite Hareas, Hsec. cbn [bind length].
  apply for_each_idle. intros st cc. reflexivity.
Qed.

(** C4 as stated does not hold on an empty country table: with the
    surface-area column and a sector list that is not empty nothing is raised
    before line 115, the solver is called on a matrix without rows, and a run
    in which the solver answers ends with a report. *)
Lemma empty_country_table_reaches_solver :
  df_index alldata_empty = [] /\
  column alldata_empty "Surface area (sq. km)" = Ok [] /\
  sectors_of (index all_output_sample) = ["A"; "B"]%string /\
  estimator_input alldata_empty all_output_sample
  = Ok ([], {| nrows := 0; ncols := 1; rows := [] |}, []) /\
  main (fun _ _ => Ok [0.25%float]) alldata_empty all_output_sample
  = Ok {| diagnostics := []; report := [("A"%string, 0.25%float)] |}.
Proof.
  repeat split; reflexivity.
Qed.

(** C4, as the script behaves, on a table with the surface-area column of
    line 87. With an empty sector list the run stops before the solver is
    called, by the [IndexError] of selecting the last column of a matrix
    without columns, whatever the solver is; with a sector list that is not
    empty and an empty country table nothing is raised before estimation, and
    the solver is called on a matrix without rows. *)
Theorem empty_inputs_before_estimation
  (lsq_linear : ndarray -> list float -> result (list float))
  (alldata : DataFrame) (all_output areas : Series string) :
  column alldata "Surface area (sq. km)" = Ok areas ->
  (sectors_of (index all_output) = [] ->
   estimator_input alldata all_output = Raise IndexError /\
   main lsq_linear alldata all_output = Raise IndexError) /\
  (sectors_of (index all_output) <> [] ->
   df_index alldata = [] ->
   estimator_input alldata all_output
   = Ok ([], {| nrows := 0;
                ncols := length (sectors_of (index all_output)) - 1;
                rows := [] |}, []) /\
   main lsq_linear alldata all_output
   = (x <- lsq_linear {| nrows := 0;
                         ncols := length (sectors_of (index all_output)) - 1;
                         rows := [] |} [] ;;
      Ok {| diagnostics := [];
            report := Py.dict_of (Py.zip (sectors_of (index all_output)) x) |})).
Proof.
  intros Hareas. split.
  - intros Hsec.
    assert (Hin : estimator_input alldata all_output = Raise IndexError).
    { unfold estimator_input.
      rewrite (build_without_sectors alldata all_output areas Hareas Hsec).
      reflexivity. }
    split; [exact Hin|]. unfold main. rewrite Hin. reflexivity.
  - intros Hsec Hidx.
    assert (Hin : estimator_input alldata all_output
                  = Ok ([], {| nrows := 0;
                               ncols := length (sectors_of (index all_output)) - 1;
                               rows := [] |}, [])).
    { unfold estimator_input, build. rewrite Hareas, Hidx. cbn [bind].
      destruct (sectors_of (index all_output)) as [|sector rest]; [congruence|].
      cbn. rewrite Nat.sub_0_r. reflexivity. }
    split; [exact Hin|]. unfold main. rewrite Hin. reflexivity.
Qed.

Lemma empty_inputs_before_estimation_witness :
  (estimator_input alldata_sample all_output_no_reference = Raise IndexError /\
   main (fun _ _ => Ok []) alldata_sample all_output_no_reference = Raise IndexError) /\
  estimator_input alldata_empty all_output_sample
  = Ok ([], {| nrows := 0; ncols := 1; rows := [] |}, []).
Proof.
  split.
  - apply (proj1 (empty_inputs_before_estimation
                    (fun _ _ => Ok []) alldata_sample all_output_no_reference
                    [("DEU", 357); ("FRA", 549); ("ZZZ", 1)]%float eq_refl)).
    reflexivity.
  - apply (proj2 (empty_inputs_before_estimation
                    (fun _ _ => Ok []) alldata_empty all_output_sample [] eq_refl)).
    + discriminate.
    + reflexivity.
Defined.

(** Line 115 passes every column but the last as the predictors and the last
    column as the target. *)
Lemma estimator_input_split (alldata : DataFrame) (all_output : Series string)
  (out : list string) (A : ndarray) (b : list float) :
  estimator_input alldata all_output = Ok (out, A, b) ->
  exists st,
    build alldata all_output = Ok st /\
    out = stdout st /\
    rows A = map (@removelast float) (rows (remove_missing (output_ppp st))) /\
    b = map (fun row => last row 0%float) (rows (remove_missing (output_ppp st))).
Proof.
  unfold estimator_input.
  destruct (build alldata all_output) as [st|e]; cbn [bind]; [|discriminate].
  intros H. exists st. split; [reflexivity|].
  unfold last_column in H.
  destruct (ncols (remove_missing _)); cbn [bind] in H; [discriminate|].
  inversion H; subst. repeat split; reflexivity.
Qed.

Lemma estimator_input_sectors (alldata : DataFrame) (all_output : Series string)
  (out : list string) (A : ndarray) (b : list float) :
  estimator_input alldata all_output = Ok (out, A, b) ->
  sectors_of (index all_output) <> [].
Proof.
  unfold estimator_input.
  destruct (build alldata all_output) as [st|e] eqn:Hb; cbn [bind]; [|discriminate].
  destruct (build_shape alldata all_output st Hb) as [_ [Hk _]].
  unfold last_column. rewrite remove_missing_ncols, Hk.
  intros H Hnil. rewrite Hnil in H. discriminate.
Qed.

(** Without the surface-area column, line 87 stops the run with a
    [KeyError] before any cell is written. *)
Lemma build_without_area_column (alldata : DataFrame) (all_output : Series string) :
  lookup_column (df_columns alldata) "Surface area (sq. km)" = None ->
  build alldata all_output = Raise (KeyError "Surface area (sq. km)").
Proof.
  intros H. unfold build, column. rewrite H. reflexivity.
Qed.

Example build_without_area_sample :
  build alldata_no_area all_output_sample = Raise (KeyError "Surface area (sq. km)") /\
  estimator_input alldata_no_area all_output_sample
  = Raise (KeyError "Surface area (sq. km)").
Proof. split; reflexivity. Qed.

(** With a row label that occurs twice, the PPP lookup of line 105 yields a
    series, and the assignment of the quotient stops the run with a
    [ValueError]. *)
Example build_repeated_country :
  build alldata_repeated all_output_sample
  = Raise (ValueError "setting an array element with a sequence.").
Proof. vm_compute. reflexivity. Qed.

(** ** The reported mapping *)

Lemma sectors_of_In (columns : list string) (sec : string) :
  In sec (sectors_of columns) -> In (reference_prefix ++ sec)%string columns.
Proof.
  induction columns as [|col cols IH]; cbn [sectors_of]; [intros []|].
  destruct (Py.startswith col reference_prefix) eqn:E.
  - destruct (startswith_true _ _ E) as [t ->].
    intros [H|H]; [left | right; exact (IH H)].
    change (Py.slice_from 4 (reference_prefix ++ t)%string) with t in H.
    subst t. reflexivity.
  - intros H. right. exact (IH H).
Qed.

Lemma sectors_of_NoDup (columns : list string) :
  NoDup columns -> NoDup (sectors_of columns).
Proof.
  induction columns as [|col cols IH]; cbn [sectors_of]; intros H.
  - constructor.
  - inversion H as [|? ? Hnot Hrest]; subst.
    destruct (Py.startswith col reference_prefix) eqn:E; [|exact (IH Hrest)].
    destruct (startswith_true _ _ E) as [t ->].
    constructor; [|exact (IH Hrest)].
    change (Py.slice_from 4 (reference_prefix ++ t)%string) with t.
    intros Hin. apply Hnot. apply sectors_of_In. exact Hin.
Qed.

Lemma dict_set_fresh {V : Type} (d : Py.dict V) (k : string) (v : V) :
  ~ In k (map fst d) -> Py.dict_set d k v = d ++ [(k, v)].
Proof.
  induction d as [|[k' v'] d IH]; simpl; intros H; [reflexivity|].
  destruct (String.eqb k' k) eqn:E.
  - apply String.eqb_eq in E. exfalso. apply H. left. exact E.
  - f_equal. apply IH. intros Hin. apply H. right. exact Hin.
Qed.

Lemma dict_of_NoDup {V : Type} (pairs : list (string * V)) :
  NoDup (map fst pairs) -> Py.dict_of pairs = pairs.
Proof.
  unfold Py.dict_of.
  assert (G : forall d : Py.dict V,
             NoDup (map fst (d ++ pairs)) ->
             fold_left (fun d kv => Py.dict_set d (fst kv) (snd kv)) pairs d = d ++ pairs).
  { induction pairs as [|[k v] pairs IH]; intros d H; cbn [fold_left fst snd].
    - rewrite app_nil_r. reflexivity.
    - rewrite dict_set_fresh.
      + rewrite IH; rewrite <- app_assoc; [reflexivity | exact H].
      + rewrite map_app in H. cbn [map fst] in H.
        apply NoDup_remove_2 in H. intros Hin. apply H. apply in_or_app. left. exact Hin. }
  intros H. exact (G [] H).
Qed.

Lemma dict_get_absent {V : Type} (d : Py.dict V) (k : string) :
  ~ In k (map fst d) -> Py.dict_get d k = None.
Proof.
  induction d as [|[k' v'] d IH]; simpl; intros H; [reflexivity|].
  destruct (String.eqb k' k) eqn:E.
  - apply String.eqb_eq in E. exfalso. apply H. left. exact E.
  - apply IH. intros Hin. apply H. right. exact Hin.
Qed.

Lemma dict_get_combine {V : Type} (keys : list string) :
  forall (vals : list V) (i : nat) (k : string) (v : V),
    NoDup keys ->
    nth_error keys i = Some k ->
    nth_error vals i = Some v ->
    Py.dict_get (combine keys vals) k = Some v.
Proof.
  induction keys as [|k0 keys IH]; intros vals i k v Hnd Hk Hv.
  - destruct i; discriminate.
  - destruct vals as [|v0 vals]; [destruct i; discriminate|].
    inversion Hnd as [|? ? Hnot Hrest]; subst.
    destruct i as [|i]; cbn in Hk, Hv |- *.
    + inversion Hk; inversion Hv; subst. rewrite String.eqb_refl. reflexivity.
    + destruct (String.eqb k0 k) eqn:E.
      * apply String.eqb_eq in E. subst k0. exfalso. apply Hnot.
        eapply nth_error_In; exact Hk.
      * eapply IH; eassumption.
Qed.

Lemma combine_short {A B : Type} (xs : list A) :
  forall ys : list B,
    length ys < length xs -> combine xs ys = combine (removelast xs) ys.
Proof.
  induction xs as [|x xs IH]; intros ys H; [reflexivity|].
  destruct xs as [|x' xs].
  - destruct ys; [reflexivity | simpl in H; lia].
  - destruct ys as [|y ys]; [reflexivity|].
    change (removelast (x :: x' :: xs)) with (x :: removelast (x' :: xs)).
    cbn [combine]. f_equal. apply IH. simpl in H |- *. lia.
Qed.

Lemma last_not_in_removelast (xs : list string) (d : string) :
  NoDup xs -> xs <> [] -> ~ In (last xs d) (removelast xs).
Proof.
  intros Hnd Hne Hin.
  rewrite (app_removelast_last d Hne) in Hnd.
  apply NoDup_remove_2 in Hnd. apply Hnd. rewrite app_nil_r. exact Hin.
Qed.

Lemma removelast_NoDup (xs : list string) : NoDup xs -> NoDup (removelast xs).
Proof.
  intros Hnd. destruct xs as [|x xs']; [constructor|].
  assert (Hne : x :: xs' <> []) by discriminate.
  rewrite (app_removelast_last ""%string Hne) in Hnd.
  apply NoDup_remove_1 in Hnd. rewrite app_nil_r in Hnd. exact Hnd.
Qed.

Lemma length_removelast {A : Type} (xs : list A) :
  length (removelast xs) = length xs - 1.
Proof.
  induction xs as [|x xs IH]; [reflexivity|].
  destruct xs as [|x' xs]; [reflexivity|].
  change (removelast (x :: x' :: xs)) with (x :: removelast (x' :: xs)).
  cbn [length] in *. lia.
Qed.

Lemma map_fst_combine {A B : Type} (xs : list A) :
  forall ys : list B, length xs = length ys -> map fst (combine xs ys) = xs.
Proof.
  induction xs as [|x xs IH]; intros ys H; [reflexivity|].
  destruct ys as [|y ys]; [discriminate|].
  cbn. f_equal. apply IH. simpl in H. lia.
Qed.

Lemma nth_error_combine {A B : Type} (xs : list A) :
  forall (ys : list B) (i : nat) (a : A) (b : B),
    nth_error xs i = Some a -> nth_error ys i = Some b ->
    nth_error (combine xs ys) i = Some (a, b).
Proof.
  induction xs as [|x xs IH]; intros ys i a b Ha Hb; [destruct i; discriminate|].
  destruct ys as [|y ys]; [destruct i; discriminate|].
  destruct i as [|i]; cbn in *.
  - inversion Ha; inversion Hb; reflexivity.
  - apply IH; assumption.
Qed.

Section Report.

Variable lsq_linear : ndarray -> list float -> result (list float).

(** The solution of [lsq_linear] has one entry per column of the matrix it
    is given. *)
Hypothesis lsq_linear_shape :
  forall A b x, lsq_linear A b = Ok x -> length x = ncols A.

(** C9. The mapping printed last pairs sector [i] with coefficient [i] for
    the positions before the last sector only: the coefficient vector has one
    entry less than the sector list, and the last sector, whose column was
    the target, is not a key of the mapping.  Column labels are pairwise
    distinct, as [read_csv] returns them. *)
Theorem report_omits_target_sector (alldata : DataFrame) (all_output : Series string)
  (r : outcome) :
  NoDup (index all_output) ->
  main lsq_linear alldata all_output = Ok r ->
  exists out A b x,
    estimator_input alldata all_output = Ok (out, A, b) /\
    lsq_linear A b = Ok x /\
    length x = length (sectors_of (index all_output)) - 1 /\
    report r = combine (removelast (sectors_of (index all_output))) x /\
    (forall i sector,
        nth_error (sectors_of (index all_output)) i = Some sector ->
        i < length (sectors_of (index all_output)) - 1 ->
        exists w,
          nth_error x i = Some w /\
          nth_error (report r) i = Some (sector, w) /\
          Py.dict_get (report r) sector = Some w) /\
    ~ In (last (sectors_of (index all_output)) ""%string) (map fst (report r)) /\
    Py.dict_get (report r) (last (sectors_of (index all_output)) ""%string) = None.
Proof.
  intros Hnd Hmain.
  pose proof (sectors_of_NoDup _ Hnd) as Hsec.
  unfold main in Hmain.
  destruct (estimator_input alldata all_output) as [[[out A] b]|e] eqn:Hin;
    cbn [bind fst snd] in Hmain; [|discriminate].
  destruct (lsq_linear A b) as [x|e] eqn:Hx; cbn [bind] in Hmain; [|discriminate].
  inversion Hmain; subst r; clear Hmain. cbn [report].
  pose proof (lsq_linear_shape _ _ _ Hx) as Hlen.
  rewrite (estimator_input_ncols _ _ _ _ _ Hin) in Hlen.
  pose proof (estimator_input_sectors _ _ _ _ _ Hin) as Hne.
  set (sectors := sectors_of (index all_output)) in *.
  assert (Hpos : 0 < length sectors) by (destruct sectors; [congruence | simpl; lia]).
  assert (Hcomb : Py.zip sectors x = combine (removelast sectors) x).
  { unfold Py.zip. apply combine_short. lia. }
  assert (Hkeys : map fst (combine (removelast sectors) x) = removelast sectors).
  { apply map_fst_combine. rewrite length_removelast. lia. }
  assert (Hdict : Py.dict_of (Py.zip sectors x) = combine (removelast sectors) x).
  { rewrite Hcomb. apply dict_of_NoDup. rewrite Hkeys. apply removelast_NoDup. exact Hsec. }
  assert (Hlast : ~ In (last sectors ""%string) (map fst (combine (removelast sectors) x))).
  { rewrite Hkeys. apply last_not_in_removelast; assumption. }
  exists out, A, b, x.
  split; [reflexivity|]. split; [exact Hx|]. split; [exact Hlen|].
  split; [exact Hdict|]. rewrite Hdict. split; [|split].
  - intros i sector Hi Hlt.
    destruct (nth_error x i) as [w|] eqn:Hw.
    + exists w. split; [reflexivity|].
      rewrite <- Hcomb. unfold Py.zip. split.
      * apply nth_error_combine; assumption.
      * eapply dict_get_combine; eassumption.
    + apply nth_error_None in Hw. lia.
  - exact Hlast.
  - apply dict_get_absent. exact Hlast.
Qed.

End Report.

Lemma report_omits_target_sector_witness :
  exists out A b x,
    estimator_input alldata_sample all_output_sample = Ok (out, A, b) /\
    (Ok (repeat 0.5%float (ncols A)) : result (list float)) = Ok x /\
    length x = length (sectors_of (index all_output_sample)) - 1 /\
    [("A"%string, 0.5%float)] = combine (removelast (sectors_of (index all_output_sample))) x /\
    (forall i sector,
        nth_error (sectors_of (index all_output_sample)) i = Some sector ->
        i < length (sectors_of (index all_output_sample)) - 1 ->
        exists w,
          nth_error x i = Some w /\
          nth_error [("A"%string, 0.5%float)] i = Some (sector, w) /\
          Py.dict_get [("A"%string, 0.5%float)] sector = Some w) /\
    ~ In (last (sectors_of (index all_output_sample)) ""%string)
         (map fst [("A"%string, 0.5%float)]) /\
    Py.dict_get [("A"%string, 0.5%float)]
      (last (sectors_of (index all_output_sample)) ""%string) = None.
Proof.
  apply (report_omits_target_sector
           (fun A _ => Ok (repeat 0.5%float (ncols A)))
           (fun A b x H => match H in (_ = r) return
                             match r with Ok y => length y = ncols A | Raise _ => True end
                           with eq_refl => repeat_length 0.5%float (ncols A) end)
           alldata_sample all_output_sample
           {| diagnostics := ["FRA_B"%string]; report := [("A"%string, 0.5%float)] |}).
  - cbn. repeat constructor; cbn; intuition discriminate.
  - reflexivity.
Defined.

(** ** One value per country: the maximum over the time axis *)

Lemma ltb_not_leb (a b : float) :
  (a <? b)%float = true -> (b <=? a)%float = true -> False.
Proof.
  rewrite ltb_spec, leb_spec.
  destruct (Prim2SF a) as [[]|[]| |[] ? ?]; destruct (Prim2SF b) as [[]|[]| |[] ? ?];
    cbn [SFleb SFltb SFcompare]; try discriminate;
    repeat match goal with
      | |- context [Z.compare ?x ?y] => destruct (Z.compare_spec x y)
      | |- context [Pos.compare_cont Eq ?x ?y] =>
          change (Pos.compare_cont Eq x y) with (Pos.compare x y);
          destruct (Pos.compare_spec x y)
      end;
    cbn [CompOpp]; intros; try discriminate; try lia.
Qed.

Lemma fmax_cases (a b : float) : fmax a b = a \/ fmax a b = b.
Proof. unfold fmax. destruct (b <? a)%float; [left | right]; reflexivity. Qed.

Lemma fmax_upper (a b : float) :
  is_nan a = false -> is_nan b = false ->
  (a <=? fmax a b)%float = true /\ (b <=? fmax a b)%float = true.
Proof.
  intros Ha Hb. unfold fmax. destruct (b <? a)%float eqn:E.
  - split; [apply F64Facts.leb_refl; exact Ha | apply F64Facts.ltb_true_leb; assumption].
  - split; [apply F64Facts.ltb_false_leb; assumption | apply F64Facts.leb_refl; exact Hb].
Qed.

Lemma fold_fmax (xs : list float) :
  forall x,
    (forall y, In y (x :: xs) -> is_nan y = false) ->
    In (fold_left fmax xs x) (x :: xs) /\
    forall y, In y (x :: xs) -> (y <=? fold_left fmax xs x)%float = true.
Proof.
  induction xs as [|z xs IH]; intros x Hnum.
  - cbn [fold_left]. split; [left; reflexivity|].
    intros y [<-|[]]. apply F64Facts.leb_refl. apply Hnum. left. reflexivity.
  - cbn [fold_left].
    assert (Hx : is_nan x = false) by (apply Hnum; left; reflexivity).
    assert (Hz : is_nan z = false) by (apply Hnum; right; left; reflexivity).
    assert (Hm : is_nan (fmax x z) = false)
      by (destruct (fmax_cases x z) as [-> | ->]; assumption).
    destruct (IH (fmax x z)) as [Hin Hup].
    { intros y [<-|Hy]; [exact Hm | apply Hnum; right; right; exact Hy]. }
    assert (Hr : is_nan (fold_left fmax xs (fmax x z)) = false).
    { destruct Hin as [<-|Hin]; [exact Hm | apply Hnum; right; right; exact Hin]. }
    destruct (fmax_upper x z Hx Hz) as [Hxm Hzm].
    pose proof (Hup (fmax x z) (or_introl eq_refl)) as Hmr.
    split.
    + destruct Hin as [Hin|Hin]; [|right; right; exact Hin].
      rewrite <- Hin. destruct (fmax_cases x z) as [-> | ->];
        [left | right; left]; reflexivity.
    + intros y [<-|[<-|Hy]].
      * exact (F64Facts.leb_trans _ _ _ Hx Hm Hr Hxm Hmr).
      * exact (F64Facts.leb_trans _ _ _ Hz Hm Hr Hzm Hmr).
      * apply Hup. right. exact Hy.
Qed.

Lemma nanmax_all_nan (obs : list float) :
  (forall x, In x obs -> is_nan x = true) -> nanmax obs = nan.
Proof.
  intros H. unfold nanmax.
  destruct (filter (fun x => negb (is_nan x)) obs) as [|x xs] eqn:E; [reflexivity|].
  assert (Hx : In x (filter (fun x => negb (is_nan x)) obs)) by (rewrite E; left; reflexivity).
  apply filter_In in Hx. destruct Hx as [Hin Hx].
  rewrite (H x Hin) in Hx. discriminate.
Qed.

Lemma nanmax_largest (obs : list float) (x : float) :
  In x obs -> is_nan x = false ->
  In (nanmax obs) obs /\
  is_nan (nanmax obs) = false /\
  forall y, In y obs -> is_nan y = false -> (y <=? nanmax obs)%float = true.
Proof.
  intros Hin Hx. unfold nanmax.
  assert (Hf : forall y, In y (filter (fun x => negb (is_nan x)) obs) <->
                         In y obs /\ is_nan y = false).
  { intros y. rewrite filter_In, negb_true_iff. reflexivity. }
  destruct (filter (fun x => negb (is_nan x)) obs) as [|x0 xs] eqn:E.
  - exfalso. apply (proj2 (Hf x)). split; assumption.
  - destruct (fold_fmax xs x0) as [Hmem Hup].
    { intros y Hy. apply Hf. exact Hy. }
    apply Hf in Hmem. destruct Hmem as [Hmem Hnum].
    split; [exact Hmem|]. split; [exact Hnum|].
    intros y Hy Hynum. apply Hup. apply Hf. split; assumption.
Qed.

(** C8. The series built from a raw observation table has one value per
    column of the table, under the reference-area label of the column, and
    that value is the maximum over the time axis of the observations that
    are numbers (not-a-number when there is none).  With several observations
    the value kept is therefore the largest one: it differs from the most
    recent observation whenever an earlier one is larger. *)
Theorem sequence_keeps_largest (data : observations) (i : nat)
  (key : series_key) (obs : list float) :
  nth_error data i = Some (key, obs) ->
  length (sequence_of data) = length data /\
  exists v,
    nth_error (sequence_of data) i = Some (snd key, v) /\
    ((forall x, In x obs -> is_nan x = true) -> v = nan) /\
    ((exists x, In x obs /\ is_nan x = false) ->
     In v obs /\ is_nan v = false /\
     (forall y, In y obs -> is_nan y = false -> (y <=? v)%float = true) /\
     (forall x, In x obs -> (last obs nan <? x)%float = true -> v <> last obs nan)).
Proof.
  intros Hi. unfold sequence_of, relabel, max_axis0.
  split; [rewrite !length_map; reflexivity|].
  exists (nanmax obs). split.
  - rewrite !nth_error_map, Hi. reflexivity.
  - split; [apply nanmax_all_nan|].
    intros [x [Hin Hx]].
    destruct (nanmax_largest obs x Hin Hx) as [Hmem [Hnum Hup]].
    split; [exact Hmem|]. split; [exact Hnum|]. split; [exact Hup|].
    intros y Hy Hlt Heq.
    assert (Hynum : is_nan y = false).
    { destruct (is_nan y) eqn:E; [|reflexivity].
      apply F64Facts.is_nan_spec in E. rewrite ltb_spec, E in Hlt.
      destruct (Prim2SF (last obs nan)); discriminate. }
    apply (ltb_not_leb _ _ Hlt). rewrite <- Heq. apply Hup; assumption.
Qed.

Lemma sequence_keeps_largest_witness :
  length (sequence_of [(("A", "NY_GNP_PCAP_CD", "DEU")%string, [5; 3]%float)]) = 1 /\
  exists v,
    nth_error (sequence_of [(("A", "NY_GNP_PCAP_CD", "DEU")%string, [5; 3]%float)]) 0
    = Some ("DEU"%string, v) /\
    ((forall x, In x [5; 3]%float -> is_nan x = true) -> v = nan) /\
    ((exists x, In x [5; 3]%float /\ is_nan x = false) ->
     In v [5; 3]%float /\ is_nan v = false /\
     (forall y, In y [5; 3]%float -> is_nan y = false -> (y <=? v)%float = true) /\
     (forall x, In x [5; 3]%float -> (3 <? x)%float = true -> v <> 3%float)).
Proof.
  apply (sequence_keeps_largest
           [(("A", "NY_GNP_PCAP_CD", "DEU")%string, [5; 3]%float)] 0
           ("A", "NY_GNP_PCAP_CD", "DEU")%string [5; 3]%float).
  reflexivity.
Defined.

(** Two observations, the older one larger: the older one is kept. *)
Example sequence_of_two_observations :
  sequence_of [(("A", "NY_GNP_PCAP_CD", "DEU")%string, [5; 3]%float)]
  = [("DEU"%string, 5%float)].
Proof. reflexivity. Qed.

(** Of two observations that compare equal the later one is kept: the
    largest of minus zero and zero, in this order, is zero. *)
Example nanmax_signed_zeros :
  nanmax [(- 0)%float; 0%float] = 0%float /\
  nanmax [0%float; (- 0)%float] = (- 0)%float.
Proof. split; vm_compute; reflexivity. Qed.

(** ** The harmonized table and its PPP column *)

Lemma lookup_put_same (columns : list (string * list float)) (name : string)
  (vals : list float) :
  lookup_column (put_column columns name vals) name = Some vals.
Proof.
  induction columns as [|[name' vals'] columns IH]; cbn [put_column lookup_column].
  - rewrite String.eqb_refl. reflexivity.
  - destruct (String.eqb name' name) eqn:E; cbn [lookup_column]; rewrite E;
      [reflexivity | exact IH].
Qed.

Lemma lookup_put_other (columns : list (string * list float)) (name other : string)
  (vals : list float) :
  other <> name ->
  lookup_column (put_column columns name vals) other = lookup_column columns other.
Proof.
  intros Hne.
  induction columns as [|[name' vals'] columns IH]; cbn [put_column lookup_column].
  - destruct (String.eqb name other) eqn:E; [|reflexivity].
    apply String.eqb_eq in E. congruence.
  - destruct (String.eqb name' name) eqn:E; cbn [lookup_column].
    + apply String.eqb_eq in E. subst name'.
      destruct (String.eqb name other) eqn:E'; [|reflexivity].
      apply String.eqb_eq in E'. congruence.
    + destruct (String.eqb name' other); [reflexivity | exact IH].
Qed.

Lemma lookup_refilled (columns : list (string * list float)) (name : string)
  (fill : list float) :
  lookup_column (map (fun c => (fst c, fill)) columns) name
  = match lookup_column columns name with Some _ => Some fill | None => None end.
Proof.
  induction columns as [|[name' vals'] columns IH]; cbn [map lookup_column fst];
    [reflexivity|].
  destruct (String.eqb name' name); [reflexivity | exact IH].
Qed.

Lemma put_column_fresh (columns : list (string * list float)) (name : string)
  (vals : list float) :
  ~ In name (map fst columns) ->
  put_column columns name vals = columns ++ [(name, vals)].
Proof.
  induction columns as [|[name' vals'] columns IH]; cbn [put_column map fst app];
    intros H; [reflexivity|].
  destruct (String.eqb name' name) eqn:E.
  - apply String.eqb_eq in E. exfalso. apply H. left. exact E.
  - f_equal. apply IH. intros Hin. apply H. right. exact Hin.
Qed.

Lemma align_index_values (s : Series string) : align (index s) (values s) = s.
Proof.
  induction s as [|[label v] s IH]; cbn; [reflexivity|]. f_equal. exact IH.
Qed.

Lemma align_map (f : string -> float) (labels : list string) :
  align labels (map f labels) = map (fun label => (label, f label)) labels.
Proof.
  induction labels as [|label labels IH]; cbn; [reflexivity | now rewrite IH].
Qed.

Lemma align_nil (vals : list float) : align [] vals = [].
Proof. reflexivity. Qed.

Lemma truediv_index (labels : list string) :
  forall va vg, index (truediv (align labels va) (align labels vg)) = labels.
Proof.
  induction labels as [|label labels IH]; intros va vg; cbn; [reflexivity|].
  f_equal. apply IH.
Qed.

Lemma truediv_maps (f g : string -> float) (labels : list string) :
  truediv (map (fun label => (label, f label)) labels)
          (map (fun label => (label, g label)) labels)
  = map (fun label => (label, (f label / g label)%float)) labels.
Proof.
  unfold truediv. induction labels as [|label labels IH]; cbn; [reflexivity|].
  f_equal. exact IH.
Qed.

Lemma truediv_nth (a g : Series string) (i : nat) (la lg : string) (x y : float) :
  nth_error a i = Some (la, x) ->
  nth_error g i = Some (lg, y) ->
  nth_error (truediv a g) i = Some (la, (x / y)%float).
Proof.
  intros Ha Hg. unfold truediv.
  rewrite nth_error_map, (nth_error_combine a g i _ _ Ha Hg). reflexivity.
Qed.

Lemma is_unique_NoDup (labels : list string) :
  NoDup labels -> is_unique labels = true.
Proof.
  induction labels as [|label labels IH]; intros H; cbn [is_unique]; [reflexivity|].
  inversion H as [|? ? Hnot Hrest]; subst.
  rewrite (IH Hrest), andb_true_r. apply negb_true_iff.
  destruct (existsb (String.eqb label) labels) eqn:E; [|reflexivity].
  exfalso. apply existsb_exists in E. destruct E as [l [Hin Hl]].
  apply String.eqb_eq in Hl. subst l. contradiction.
Qed.

(** The values of a series with distinct labels are its values by label. *)
Lemma values_by_label (s : Series string) :
  NoDup (index s) -> values s = map (value_or_nan s) (index s).
Proof.
  intros Hnd. unfold values, index. rewrite map_map. apply map_ext_in.
  intros [label v] Hin. cbn [fst snd]. unfold value_or_nan.
  rewrite (getitem_NoDup s label v Hnd Hin). reflexivity.
Qed.

Lemma ensure_names (df : DataFrame) (s : Series string) :
  map fst (df_columns (ensure_valid_index df s)) = map fst (df_columns df).
Proof.
  unfold ensure_valid_index. destruct (df_index df); [|reflexivity].
  cbn [df_columns]. rewrite map_map. reflexivity.
Qed.

Lemma ensure_index (df : DataFrame) (s : Series string) :
  df_index (ensure_valid_index df s)
  = match df_index df with [] => index s | label :: labels => label :: labels end.
Proof.
  unfold ensure_valid_index. destruct (df_index df) eqn:E; [reflexivity | exact E].
Qed.

(** Storing a series with distinct labels raises nothing; the new column is
    the series read by the row labels. *)
Lemma set_column_distinct (df : DataFrame) (name : string) (s : Series string) :
  NoDup (index s) ->
  set_column df name s
  = Ok {| df_index := df_index (ensure_valid_index df s);
          df_columns := put_column (df_columns (ensure_valid_index df s)) name
                          (map (value_or_nan s) (df_index (ensure_valid_index df s))) |}.
Proof.
  intros Hnd. unfold set_column.
  destruct (list_eq_dec string_dec (index s) (df_index (ensure_valid_index df s)))
    as [Heq|_]; cbn [bind].
  - rewrite <- Heq, <- (values_by_label s Hnd). reflexivity.
  - unfold reindex. rewrite (is_unique_NoDup _ Hnd). cbn [bind]. reflexivity.
Qed.

(** Storing a series that carries the frame's index raises nothing: the
    index stays, the new column is the series, the other columns read as
    before. *)
Lemma set_column_same_index (df : DataFrame) (name : string) (s : Series string) :
  index s = df_index df ->
  exists df',
    set_column df name s = Ok df' /\
    df_index df' = df_index df /\
    column df' name = Ok s /\
    forall other col,
      other <> name ->
      column df other = Ok col ->
      column df' other = Ok col.
Proof.
  intros Hidx. unfold set_column, ensure_valid_index.
  destruct (df_index df) as [|label labels] eqn:E.
  - cbn [df_index df_columns].
    destruct (list_eq_dec string_dec (index s) (index s)) as [_|N]; [|congruence].
    cbn [bind]. eexists. split; [reflexivity|]. cbn [df_index].
    split; [exact Hidx|]. split.
    + unfold column. cbn [df_index df_columns]. rewrite lookup_put_same.
      rewrite align_index_values. reflexivity.
    + intros other col Hne. unfold column. cbn [df_index df_columns].
      rewrite lookup_put_other by exact Hne. rewrite lookup_refilled, E, Hidx.
      destruct (lookup_column (df_columns df) other); [|discriminate].
      rewrite !align_nil. auto.
  - rewrite E.
    destruct (list_eq_dec string_dec (index s) (label :: labels)) as [_|N]; [|congruence].
    cbn [bind]. eexists. split; [reflexivity|]. cbn [df_index df_columns]. rewrite ?E.
    split; [reflexivity|]. split.
    + unfold column. cbn [df_index df_columns]. rewrite lookup_put_same.
      rewrite <- Hidx, align_index_values. reflexivity.
    + intros other col Hne. unfold column. cbn [df_index df_columns].
      rewrite lookup_put_other by exact Hne. rewrite ?E. auto.
Qed.

Lemma index_nil (s : Series string) : index s = [] -> s = [].
Proof. destruct s; [reflexivity | discriminate]. Qed.

Lemma first_index_app (ss : list (Series string)) (s : Series string) :
  first_index (ss ++ [s])
  = match first_index ss with [] => index s | label :: labels => label :: labels end.
Proof.
  induction ss as [|s0 ss IH]; cbn [app first_index].
  - destruct (index s); reflexivity.
  - destruct (index s0); [exact IH | reflexivity].
Qed.

Lemma first_index_nil (ss : list (Series string)) :
  first_index ss = [] -> forall s, In s ss -> s = [].
Proof.
  induction ss as [|s0 ss IH]; cbn [first_index]; intros H s Hin; [destruct Hin|].
  destruct (index s0) eqn:E; [|discriminate].
  destruct Hin as [<-|Hin]; [apply index_nil; exact E | exact (IH H s Hin)].
Qed.

Lemma first_index_NoDup (ss : list (Series string)) :
  (forall s, In s ss -> NoDup (index s)) -> NoDup (first_index ss).
Proof.
  induction ss as [|s0 ss IH]; cbn [first_index]; intros H; [constructor|].
  destruct (index s0) as [|label labels] eqn:E.
  - apply IH. intros s Hin. apply H. right. exact Hin.
  - rewrite <- E. apply H. left. reflexivity.
Qed.

Lemma map_const_repeat {A B : Type} (b : B) (l : list A) :
  map (fun _ => b) l = repeat b (length l).
Proof.
  induction l as [|x l IH]; cbn; [reflexivity | now rewrite IH].
Qed.

(** One turn of the loop keeps the table as [collected] describes it. *)
Lemma collect_step (unstats_get : string -> observations)
  (done : list (string * string)) (ind : string * string) (df : DataFrame) :
  collected unstats_get done df ->
  ~ In (snd ind) (map snd done) ->
  NoDup (index (sequence_of (unstats_get (fst ind)))) ->
  exists df',
    set_column df (snd ind) (sequence_of (unstats_get (fst ind))) = Ok df' /\
    collected unstats_get (done ++ [ind]) df'.
Proof.
  intros [Hnames [Hidx Hcols]] Hfresh Hnd.
  set (s := sequence_of (unstats_get (fst ind))) in *.
  assert (Hfresh' : ~ In (snd ind) (map fst (df_columns (ensure_valid_index df s)))).
  { rewrite ensure_names, Hnames. exact Hfresh. }
  eexists. split; [apply (set_column_distinct df (snd ind) s Hnd)|].
  unfold collected. cbn [df_index df_columns].
  split; [|split].
  - rewrite (put_column_fresh _ _ _ Hfresh'), !map_app, ensure_names, Hnames.
    reflexivity.
  - unfold sequences. rewrite map_app. cbn [map].
    fold (sequences unstats_get done). fold s. rewrite first_index_app, <- Hidx.
    apply ensure_index.
  - intros ind' Hin. apply in_app_or in Hin. destruct Hin as [Hin|[<-|[]]].
    + assert (Hne : snd ind' <> snd ind).
      { intros Heq. apply Hfresh. rewrite <- Heq. apply in_map. exact Hin. }
      rewrite (lookup_put_other _ _ _ _ Hne).
      unfold ensure_valid_index. destruct (df_index df) as [|label labels] eqn:E.
      * cbn [df_columns df_index]. rewrite lookup_refilled, (Hcols ind' Hin).
        assert (Hs' : sequence_of (unstats_get (fst ind')) = []).
        { apply (first_index_nil (sequences unstats_get done)); [congruence|].
          unfold sequences. apply (in_map (fun i => sequence_of (unstats_get (fst i)))).
          exact Hin. }
        rewrite Hs'. f_equal.
        change (value_or_nan []) with (fun _ : string => nan).
        rewrite map_const_repeat. unfold index. rewrite length_map. reflexivity.
      * rewrite (Hcols ind' Hin), E. reflexivity.
    + rewrite lookup_put_same. reflexivity.
Qed.

Lemma collect_preserves (unstats_get : string -> observations)
  (rest : list (string * string)) :
  forall (done : list (string * string)) (df : DataFrame),
    collected unstats_get done df ->
    NoDup (map snd (done ++ rest)) ->
    distinct_areas unstats_get rest ->
    exists df',
      for_each (collect unstats_get) rest (Some df) = Ok (Some df') /\
      collected unstats_get (done ++ rest) df'.
Proof.
  induction rest as [|ind rest IH]; intros done df Hinv Hnd Hareas.
  - exists df. rewrite app_nil_r. split; [reflexivity | exact Hinv].
  - cbn [for_each collect].
    assert (Hfresh : ~ In (snd ind) (map snd done)).
    { rewrite map_app in Hnd. cbn [map] in Hnd. apply NoDup_remove_2 in Hnd.
      intros Hin. apply Hnd. apply in_or_app. left. exact Hin. }
    destruct (collect_step unstats_get done ind df Hinv Hfresh)
      as [df1 [Hset Hinv1]]; [apply Hareas; left; reflexivity|].
    rewrite Hset. cbn [bind].
    destruct (IH (done ++ [ind]) df1 Hinv1) as [df' [Hfold Hinv']].
    + rewrite <- app_assoc. exact Hnd.
    + intros i Hi. apply Hareas. right. exact Hi.
    + exists df'. split; [exact Hfold|]. rewrite <- app_assoc in Hinv'. exact Hinv'.
Qed.

Lemma indicator_names_distinct : NoDup (map snd indicators).
Proof.
  cbn. repeat constructor; cbn; intuition discriminate.
Qed.

Lemma ppp_is_no_indicator : ~ In "PPP"%string (map snd indicators).
Proof. cbn. intuition discriminate. Qed.

(** After the loop of line 47. *)
Lemma collected_all (unstats_get : string -> observations) :
  distinct_areas unstats_get indicators ->
  exists df,
    for_each (collect unstats_get) indicators None = Ok (Some df) /\
    collected unstats_get indicators df.
Proof.
  intros Hareas.
  set (first := ("AG_LND_AGRI_ZS", "Agricultural land (% of land area)")%string).
  assert (Hfirst : NoDup (index (sequence_of (unstats_get (fst first))))).
  { apply Hareas. left. reflexivity. }
  destruct (collect_preserves unstats_get (tl indicators) [first]
              (of_series (snd first) (sequence_of (unstats_get (fst first)))))
    as [df [Hfold Hinv]].
  - unfold collected, of_series, sequences. cbn [df_columns df_index map fst snd].
    split; [reflexivity|]. split.
    + cbn [first_index].
      destruct (index (sequence_of (unstats_get (fst first)))); reflexivity.
    + intros ind [<-|[]]. cbn [lookup_column fst snd]. rewrite String.eqb_refl.
      f_equal. apply values_by_label. exact Hfirst.
  - exact indicator_names_distinct.
  - intros ind Hin. apply Hareas. right. exact Hin.
  - exists df. split; [exact Hfold | exact Hinv].
Qed.

(** The table that line 68 completes, with what the loop established: the
    harmonizer returns it, with the row labels and the indicator columns of
    the loop and the quotient as its PPP column. *)
Lemma harmonize_collected (unstats_get : string -> observations) :
  distinct_areas unstats_get indicators ->
  exists df quotient alldata,
    collected unstats_get indicators df /\
    quotient
    = map (fun country =>
             (country,
              (value_or_nan (sequence_of (unstats_get "NY_GNP_PCAP_CD"%string)) country
               / value_or_nan (sequence_of (unstats_get "NY_GNP_PCAP_PP_CD"%string)) country)%float))
          (df_index df) /\
    harmonize unstats_get = Ok alldata /\
    df_index alldata = df_index df /\
    column alldata "PPP" = Ok quotient /\
    (forall other col,
        other <> "PPP"%string ->
        column df other = Ok col ->
        column alldata other = Ok col) /\
    df_columns alldata
    = df_columns (ensure_valid_index df quotient) ++ [("PPP"%string, values quotient)].
Proof.
  intros Hareas.
  destruct (collected_all unstats_get Hareas) as [df [Hfold Hinv]].
  pose proof Hinv as [Hnames [_ Hcols]].
  pose proof (Hcols ("NY_GNP_PCAP_CD"%string, gni_atlas)) as Ha.
  pose proof (Hcols ("NY_GNP_PCAP_PP_CD"%string, gni_ppp)) as Hg.
  cbn [fst snd] in Ha, Hg.
  specialize (Ha ltac:(cbn; tauto)). specialize (Hg ltac:(cbn; tauto)).
  set (q := map (fun country =>
             (country,
              (value_or_nan (sequence_of (unstats_get "NY_GNP_PCAP_CD"%string)) country
               / value_or_nan (sequence_of (unstats_get "NY_GNP_PCAP_PP_CD"%string)) country)%float))
          (df_index df)).
  assert (Hq : index q = df_index df).
  { unfold q, index. rewrite map_map. cbn [fst]. apply map_id. }
  destruct (set_column_same_index df "PPP" q Hq) as [alldata [Hset [Hidx [Hppp Hother]]]].
  exists df, q, alldata.
  split; [exact Hinv|]. split; [reflexivity|]. split.
  { unfold harmonize, column. rewrite Hfold. cbn [bind]. rewrite Ha. cbn [bind].
    rewrite Hg. cbn [bind]. rewrite !align_map, truediv_maps. exact Hset. }
  split; [exact Hidx|]. split; [exact Hppp|]. split; [exact Hother|].
  unfold set_column in Hset.
  assert (Hidx' : index q = df_index (ensure_valid_index df q)).
  { rewrite ensure_index. destruct (df_index df); [reflexivity | exact Hq]. }
  destruct (list_eq_dec string_dec (index q) (df_index (ensure_valid_index df q)))
    as [_|N]; [|congruence].
  cbn [bind] in Hset. inversion Hset. cbn [df_columns].
  apply put_column_fresh. rewrite ensure_names, Hnames. exact ppp_is_no_indicator.
Qed.

(** The column of an indicator in the table of the loop. *)
Lemma collected_column (unstats_get : string -> observations) (df : DataFrame)
  (name description : string) :
  collected unstats_get indicators df ->
  In (name, description) indicators ->
  column df description
  = Ok (map (fun country =>
               (country, value_or_nan (sequence_of (unstats_get name)) country))
            (df_index df)).
Proof.
  intros [_ [_ Hcols]] Hin. unfold column.
  pose proof (Hcols (name, description) Hin) as Hcol. cbn [fst snd] in Hcol.
  rewrite Hcol. rewrite align_map. reflexivity.
Qed.

(** C6. When every answer of the indicator service has pairwise distinct
    country labels, the harmonizer returns a table whose rows are the
    countries of the first series that has any, whose two GNI-per-capita
    columns are the series read by country, and whose PPP column is, country
    by country, the "GNI per capita, Atlas method (current US$)" value
    divided by the "GNI per capita, PPP (current international $)" value, in
    particular wherever both are present. *)
Theorem ppp_column_is_ratio (unstats_get : string -> observations) :
  distinct_areas unstats_get indicators ->
  exists alldata atlas gni ppp,
    harmonize unstats_get = Ok alldata /\
    df_index alldata = first_index (sequences unstats_get indicators) /\
    column alldata "GNI per capita, Atlas method (current US$)" = Ok atlas /\
    column alldata "GNI per capita, PPP (current international $)" = Ok gni /\
    column alldata "PPP" = Ok ppp /\
    atlas
    = map (fun country =>
             (country,
              value_or_nan (sequence_of (unstats_get "NY_GNP_PCAP_CD"%string)) country))
          (df_index alldata) /\
    gni
    = map (fun country =>
             (country,
              value_or_nan (sequence_of (unstats_get "NY_GNP_PCAP_PP_CD"%string)) country))
          (df_index alldata) /\
    ppp = truediv atlas gni /\
    index ppp = df_index alldata /\
    forall i country a g,
      nth_error atlas i = Some (country, a) ->
      nth_error gni i = Some (country, g) ->
      is_nan a = false ->
      is_nan g = false ->
      nth_error ppp i = Some (country, (a / g)%float).
Proof.
  intros Hareas.
  destruct (harmonize_collected unstats_get Hareas)
    as [df [q [alldata [Hinv [Hq [Hh [Hidx [Hppp [Hother _]]]]]]]]].
  pose proof (collected_column unstats_get df "NY_GNP_PCAP_CD" gni_atlas Hinv
                ltac:(cbn; tauto)) as Ha.
  pose proof (collected_column unstats_get df "NY_GNP_PCAP_PP_CD" gni_ppp Hinv
                ltac:(cbn; tauto)) as Hg.
  destruct Hinv as [_ [Hfirst _]].
  eexists alldata, _, _, q.
  split; [exact Hh|].
  split; [rewrite Hidx; exact Hfirst|].
  split; [apply Hother; [discriminate | exact Ha]|].
  split; [apply Hother; [discriminate | exact Hg]|].
  split; [exact Hppp|].
  rewrite Hidx.
  split; [reflexivity|]. split; [reflexivity|].
  assert (Hdiv : q = truediv
                       (map (fun country =>
                               (country,
                                value_or_nan (sequence_of (unstats_get "NY_GNP_PCAP_CD"%string))
                                  country)) (df_index df))
                       (map (fun country =>
                               (country,
                                value_or_nan (sequence_of (unstats_get "NY_GNP_PCAP_PP_CD"%string))
                                  country)) (df_index df))).
  { rewrite truediv_maps. exact Hq. }
  split; [exact Hdiv|].
  split; [rewrite Hq; unfold index; rewrite map_map; apply map_id|].
  intros i country a g Hai Hgi _ _. rewrite Hdiv.
  exact (truediv_nth _ _ i _ _ _ _ Hai Hgi).
Qed.

Lemma sample_areas_distinct : distinct_areas unstats_sample indicators.
Proof.
  intros ind Hin. cbn in Hin.
  repeat (destruct Hin as [<-|Hin];
          [cbn; repeat constructor; cbn; intuition discriminate|]).
  destruct Hin.
Qed.

Lemma ppp_column_is_ratio_witness :
  exists alldata atlas gni ppp,
    harmonize unstats_sample = Ok alldata /\
    df_index alldata = first_index (sequences unstats_sample indicators) /\
    column alldata "GNI per capita, Atlas method (current US$)" = Ok atlas /\
    column alldata "GNI per capita, PPP (current international $)" = Ok gni /\
    column alldata "PPP" = Ok ppp /\
    atlas
    = map (fun country =>
             (country,
              value_or_nan (sequence_of (unstats_sample "NY_GNP_PCAP_CD"%string)) country))
          (df_index alldata) /\
    gni
    = map (fun country =>
             (country,
              value_or_nan (sequence_of (unstats_sample "NY_GNP_PCAP_PP_CD"%string)) country))
          (df_index alldata) /\
    ppp = truediv atlas gni /\
    index ppp = df_index alldata /\
    forall i country a g,
      nth_error atlas i = Some (country, a) ->
      nth_error gni i = Some (country, g) ->
      is_nan a = false ->
      is_nan g = false ->
      nth_error ppp i = Some (country, (a / g)%float).
Proof.
  exact (ppp_column_is_ratio unstats_sample sample_areas_distinct).
Defined.

(** On the sample answers: the ratio where both values are present,
    not-a-number for the country that has neither. *)
Example ppp_column_sample :
  exists alldata,
    harmonize unstats_sample = Ok alldata /\
    df_index alldata = ["DEU"; "FRA"; "USA"]%string /\
    column alldata "PPP" = Ok [("DEU"%string, 0.5); ("FRA"%string, 2); ("USA"%string, nan)]%float.
Proof.
  eexists. split; [vm_compute; reflexivity|]. split; reflexivity.
Qed.

(** A later answer in which a country occurs twice stops the harmonizer at
    line 64. *)
Example repeated_area_raises :
  harmonize (fun name =>
               if String.eqb name "AG_LND_AGRI_ZS"
               then [ (("A", name, "DEU")%string, [1]%float) ]
               else [ (("A", name, "DEU")%string, [1]%float);
                      (("A", name, "DEU")%string, [2]%float) ])
  = Raise (ValueError "cannot reindex on an axis with duplicate labels").
Proof. vm_compute. reflexivity. Qed.

(** The whole script is the build and the estimation on the table that the
    harmonizer returns, and nothing when the harmonizer raises. *)
Lemma script_runs_main (lsq_linear : ndarray -> list float -> result (list float))
  (unstats_get : string -> observations) (all_output : Series string) :
  script lsq_linear unstats_get all_output
  = match harmonize unstats_get with
    | Ok alldata => main lsq_linear alldata all_output
    | Raise e => Raise e
    end.
Proof. reflexivity. Qed.

(** ** Division by zero and by not-a-number *)

Lemma div_nan_l (x y : float) : is_nan x = true -> (x / y)%float = nan.
Proof.
  intros H. apply F64Facts.is_nan_spec in H. apply Prim2SF_inj.
  rewrite div_spec, H. reflexivity.
Qed.

Lemma eqb_zero_spec (p : float) :
  (p =? 0)%float = true -> exists s, Prim2SF p = S754_zero s.
Proof.
  rewrite eqb_spec. change (Prim2SF 0%float) with (S754_zero false).
  destruct (Prim2SF p) as [s|[]| |[] m e]; cbn; try discriminate.
  intros _. exists s. reflexivity.
Qed.

Lemma is_infinity_spec (x : float) (s : bool) :
  Prim2SF x = S754_infinity s -> is_infinity x = true /\ is_nan x = false.
Proof.
  intros H. split.
  - unfold is_infinity. rewrite eqb_spec, abs_spec, H. reflexivity.
  - apply F64Facts.is_nan_false. rewrite H. discriminate.
Qed.

(** A number divided by zero: an infinity, or not-a-number for zero by zero. *)
Lemma div_zero_r (o p : float) :
  is_nan o = false ->
  (p =? 0)%float = true ->
  ((o =? 0)%float = false -> is_infinity (o / p) = true /\ is_nan (o / p) = false) /\
  ((o =? 0)%float = true -> (o / p)%float = nan).
Proof.
  intros Ho Hp. apply F64Facts.is_nan_false in Ho.
  destruct (eqb_zero_spec p Hp) as [sp Hsp].
  split; intros Hz.
  - assert (exists s, Prim2SF (o / p) = S754_infinity s) as [s Hs].
    { rewrite div_spec, Hsp. rewrite eqb_spec in Hz.
      change (Prim2SF 0%float) with (S754_zero false) in Hz.
      destruct (Prim2SF o) as [so|so| |so m e]; cbn in Hz |- *;
        try discriminate; try congruence; eexists; reflexivity. }
    exact (is_infinity_spec _ s Hs).
  - destruct (eqb_zero_spec o Hz) as [so Hso].
    apply Prim2SF_inj. rewrite div_spec, Hsp, Hso. reflexivity.
Qed.

(** ** More on the design matrix *)

Lemma length_flat_map_le {A B : Type} (f : A -> list B) (k : nat) (l : list A) :
  (forall x, length (f x) <= k) -> length (flat_map f l) <= length l * k.
Proof.
  intros Hf. induction l as [|x l IH]; cbn [flat_map length]; [lia|].
  rewrite length_app. specialize (Hf x). cbn. lia.
Qed.

Lemma cell_lines_length (alldata : DataFrame) (all_output : Series string)
  (country sector : string) :
  length (cell_lines alldata all_output country sector) <= 1.
Proof.
  unfold cell_lines.
  destruct (ppp_output alldata all_output country sector) as [v|[]]; cbn; lia.
Qed.

(** X1. On a table with pairwise distinct row labels and the surface-area
    column, and a total-output row with pairwise distinct labels, the build
    raises nothing: every assignment of lines 105 and 110 falls within the
    shape that line 101 gave the matrix.  It ends with the surface areas of
    line 87, one row per country of the table's index, each row with one
    cell per sector, and with at most one printed line per cell. *)
Theorem build_returns_full_shape (alldata : DataFrame) (all_output areas : Series string) :
  NoDup (df_index alldata) ->
  NoDup (index all_output) ->
  column alldata "Surface area (sq. km)" = Ok areas ->
  exists st,
    build alldata all_output = Ok st /\
    countryarea st = values areas /\
    nrows (output_ppp st) = length (df_index alldata) /\
    ncols (output_ppp st) = length (sectors_of (index all_output)) /\
    length (rows (output_ppp st)) = length (df_index alldata) /\
    (forall row, In row (rows (output_ppp st)) ->
                 length row = length (sectors_of (index all_output))) /\
    length (stdout st)
    <= length (df_index alldata) * length (sectors_of (index all_output)).
Proof.
  intros Hcountries Hlabels Hareas.
  eexists. split; [apply (build_result alldata all_output Hcountries Hlabels areas Hareas)|].
  cbn [countryarea output_ppp stdout nrows ncols rows].
  split; [reflexivity|]. split; [reflexivity|]. split; [reflexivity|].
  split; [apply length_map|]. split.
  - intros row Hrow. apply in_map_iff in Hrow. destruct Hrow as [country [<- _]].
    apply length_map.
  - apply length_flat_map_le. intros country.
    rewrite <- (Nat.mul_1_r (length (sectors_of (index all_output)))).
    apply length_flat_map_le. intros sector. apply cell_lines_length.
Qed.

Lemma build_returns_full_shape_witness :
  exists st,
    build alldata_sample all_output_sample = Ok st /\
    countryarea st = values [("DEU"%string, 357); ("FRA"%string, 549); ("ZZZ"%string, 1)]%float /\
    nrows (output_ppp st) = length (df_index alldata_sample) /\
    ncols (output_ppp st) = length (sectors_of (index all_output_sample)) /\
    length (rows (output_ppp st)) = length (df_index alldata_sample) /\
    (forall row, In row (rows (output_ppp st)) ->
                 length row = length (sectors_of (index all_output_sample))) /\
    length (stdout st)
    <= length (df_index alldata_sample) * length (sectors_of (index all_output_sample)).
Proof.
  apply (build_returns_full_shape alldata_sample all_output_sample
           [("DEU"%string, 357); ("FRA"%string, 549); ("ZZZ"%string, 1)]%float).
  - exact sample_countries_distinct.
  - exact sample_labels_distinct.
  - reflexivity.
Defined.

Lemma filter_flat_map {A B : Type} (f : B -> bool) (g : A -> list B) (l : list A) :
  filter f (flat_map g l) = flat_map (fun x => filter f (g x)) l.
Proof.
  induction l as [|x l IH]; cbn [flat_map]; [reflexivity|].
  rewrite filter_app, IH. reflexivity.
Qed.

Lemma flat_map_agree {A B : Type} (f g : A -> list B) (l : list A) :
  (forall x, In x l -> f x = g x) -> flat_map f l = flat_map g l.
Proof.
  induction l as [|x l IH]; intros H; cbn [flat_map]; [reflexivity|].
  rewrite (H x (or_introl eq_refl)), IH; [reflexivity|].
  intros y Hy. apply H. right. exact Hy.
Qed.

Lemma flat_map_singletons {A B : Type} (f : A -> B) (keep : B -> bool) (l : list A) :
  flat_map (fun x => if keep (f x) then [f x] else []) l = filter keep (map f l).
Proof.
  induction l as [|x l IH]; cbn [flat_map map filter]; [reflexivity|].
  rewrite IH. destruct (keep (f x)); reflexivity.
Qed.

Lemma existsb_eqb_In (key : string) (labels : list string) :
  existsb (String.eqb key) labels = true <-> In key labels.
Proof.
  rewrite existsb_exists. split.
  - intros [k [Hin Hk]]. apply String.eqb_eq in Hk. subst k. exact Hin.
  - intros Hin. exists key. split; [exact Hin | apply String.eqb_refl].
Qed.

(** What the loop body prints for a country of the index, when the labels
    are distinct and the table has its PPP column: the key, if the
    total-output row lacks it. *)
Lemma cell_lines_missing (alldata : DataFrame) (all_output ppp : Series string)
  (country sector : string) :
  NoDup (df_index alldata) ->
  NoDup (index all_output) ->
  column alldata "PPP" = Ok ppp ->
  In country (df_index alldata) ->
  cell_lines alldata all_output country sector
  = if negb (existsb (String.eqb (composite country sector)) (index all_output))
    then [composite country sector] else [].
Proof.
  intros Hcountries Hlabels Hppp Hc. unfold cell_lines, ppp_output.
  destruct (existsb (String.eqb (composite country sector)) (index all_output)) eqn:E.
  - apply existsb_eqb_In in E.
    destruct (getitem_In all_output _ Hlabels E) as [o Ho]. rewrite Ho.
    cbn [bind]. rewrite Hppp. cbn [bind].
    destruct (getitem_In ppp country) as [p Hp].
    { rewrite (column_index _ _ _ Hppp). exact Hcountries. }
    { rewrite (column_index _ _ _ Hppp). exact Hc. }
    rewrite Hp. reflexivity.
  - rewrite getitem_not_In; [reflexivity|].
    intros Hin. apply existsb_eqb_In in Hin. congruence.
Qed.

(** X2. On a table with pairwise distinct row labels, the surface-area
    column and the PPP column, and a total-output row with pairwise distinct
    labels, the lines printed by the build are exactly the composite keys
    that the total-output row lacks, once per (country, sector) cell and in
    the order of the loops: countries outside, sectors inside. *)
Theorem diagnostics_are_the_missing_keys (alldata : DataFrame)
  (all_output areas ppp : Series string) :
  NoDup (df_index alldata) ->
  NoDup (index all_output) ->
  column alldata "Surface area (sq. km)" = Ok areas ->
  column alldata "PPP" = Ok ppp ->
  exists st,
    build alldata all_output = Ok st /\
    stdout st
    = filter (fun key => negb (existsb (String.eqb key) (index all_output)))
        (flat_map (fun country =>
                     map (fun sector => (country ++ "_" ++ sector)%string)
                         (sectors_of (index all_output)))
                  (df_index alldata)).
Proof.
  intros Hcountries Hlabels Hareas Hppp.
  eexists. split; [apply (build_result alldata all_output Hcountries Hlabels areas Hareas)|].
  cbn [stdout].
  rewrite filter_flat_map. apply flat_map_agree. intros country Hc.
  rewrite <- (flat_map_singletons (composite country)
                (fun key => negb (existsb (String.eqb key) (index all_output)))).
  apply flat_map_agree. intros sector _.
  exact (cell_lines_missing alldata all_output ppp country sector
           Hcountries Hlabels Hppp Hc).
Qed.

Lemma diagnostics_are_the_missing_keys_witness :
  exists st,
    build alldata_sample all_output_sample = Ok st /\
    stdout st
    = filter (fun key => negb (existsb (String.eqb key) (index all_output_sample)))
        (flat_map (fun country =>
                     map (fun sector => (country ++ "_" ++ sector)%string)
                         (sectors_of (index all_output_sample)))
                  (df_index alldata_sample)).
Proof.
  apply (diagnostics_are_the_missing_keys alldata_sample all_output_sample
           [("DEU"%string, 357); ("FRA"%string, 549); ("ZZZ"%string, 1)]%float
           [("DEU"%string, 2); ("FRA"%string, 0.5); ("ZZZ"%string, nan)]%float).
  - exact sample_countries_distinct.
  - exact sample_labels_distinct.
  - reflexivity.
  - reflexivity.
Defined.

(** ** More on the row filter and the estimator's arguments *)

Lemma remove_missing_filter (a : ndarray) :
  rows (remove_missing a)
  = filter (fun row => negb (existsb is_nan row)) (rows a).
Proof.
  unfold remove_missing, boolean_index, invert, isnan_any. cbn [rows].
  induction (rows a) as [|row rest IH]; cbn [map select filter]; [reflexivity|].
  rewrite IH. destruct (existsb is_nan row); reflexivity.
Qed.

Lemma filter_all {A : Type} (f : A -> bool) (l : list A) :
  (forall x, In x l -> f x = true) -> filter f l = l.
Proof.
  induction l as [|x l IH]; intros H; cbn [filter]; [reflexivity|].
  rewrite (H x (or_introl eq_refl)), IH; [reflexivity|].
  intros y Hy. apply H. right. exact Hy.
Qed.

Lemma filter_length_le' {A : Type} (f : A -> bool) (l : list A) :
  length (filter f l) <= length l.
Proof.
  induction l as [|x l IH]; cbn [filter length]; [lia|].
  destruct (f x); cbn [length]; lia.
Qed.

Lemma remove_missing_resolved (a : ndarray) (row : list float) :
  In row (rows (remove_missing a)) -> In row (rows a) /\ resolved row.
Proof.
  rewrite remove_missing_filter, filter_In, negb_true_iff, existsb_is_nan_false.
  tauto.
Qed.

Lemma ndarray_eq (a b : ndarray) :
  nrows a = nrows b -> ncols a = ncols b -> rows a = rows b -> a = b.
Proof.
  destruct a, b. cbn. intros -> -> ->. reflexivity.
Qed.

(** X3. Line 113 leaves a matrix whose rows have no unresolved cell, with
    the same number of columns, a row count that is the number of rows kept
    and at most the number of rows given; applying it again changes
    nothing. *)
Theorem remove_missing_idempotent (a : ndarray) :
  (forall row, In row (rows (remove_missing a)) -> resolved row) /\
  ncols (remove_missing a) = ncols a /\
  nrows (remove_missing a) = length (rows (remove_missing a)) /\
  nrows (remove_missing a) <= length (rows a) /\
  remove_missing (remove_missing a) = remove_missing a.
Proof.
  assert (Hres : forall row, In row (rows (remove_missing a)) -> resolved row).
  { intros row H. apply (remove_missing_resolved a row H). }
  assert (Hrows : rows (remove_missing (remove_missing a)) = rows (remove_missing a)).
  { rewrite (remove_missing_filter (remove_missing a)). apply filter_all.
    intros row H. apply negb_true_iff, existsb_is_nan_false, Hres, H. }
  split; [exact Hres|]. split; [reflexivity|]. split; [reflexivity|]. split.
  - change (nrows (remove_missing a)) with (length (rows (remove_missing a))).
    rewrite remove_missing_filter. apply filter_length_le'.
  - apply ndarray_eq; [|reflexivity|exact Hrows].
    change (length (rows (remove_missing (remove_missing a)))
            = length (rows (remove_missing a))).
    rewrite Hrows. reflexivity.
Qed.

(** X4. A matrix without any unresolved cell, whose row count is the number
    of its rows, passes line 113 unchanged. *)
Theorem remove_missing_dense_unchanged (a : ndarray) :
  nrows a = length (rows a) ->
  (forall row, In row (rows a) -> resolved row) ->
  remove_missing a = a.
Proof.
  intros Hn Hres.
  assert (Hrows : rows (remove_missing a) = rows a).
  { rewrite remove_missing_filter. apply filter_all.
    intros row H. apply negb_true_iff, existsb_is_nan_false, Hres, H. }
  apply ndarray_eq; [|reflexivity|exact Hrows].
  change (length (rows (remove_missing a)) = nrows a).
  rewrite Hrows, Hn. reflexivity.
Qed.

Lemma remove_missing_dense_unchanged_witness :
  remove_missing {| nrows := 2; ncols := 2; rows := [[1; 2]; [3; 4]]%float |}
  = {| nrows := 2; ncols := 2; rows := [[1; 2]; [3; 4]]%float |}.
Proof.
  apply remove_missing_dense_unchanged.
  - reflexivity.
  - intros row Hrow v Hv. cbn in Hrow.
    destruct Hrow as [<-|[<-|[]]]; cbn in Hv;
      destruct Hv as [<-|[<-|[]]]; reflexivity.
Defined.

Lemma combine_maps {A B C : Type} (f : A -> B) (g : A -> C) (l : list A) :
  combine (map f l) (map g l) = map (fun x => (f x, g x)) l.
Proof.
  induction l as [|x l IH]; cbn; [reflexivity | now rewrite IH].
Qed.

Lemma removelast_In {A : Type} (l : list A) (x : A) :
  In x (removelast l) -> In x l.
Proof.
  induction l as [|y l IH]; [intros []|].
  destruct l as [|z l]; [intros []|].
  change (removelast (y :: z :: l)) with (y :: removelast (z :: l)).
  intros [<-|H]; [left; reflexivity | right; exact (IH H)].
Qed.

Lemma last_In {A : Type} (l : list A) (d : A) : l <> [] -> In (last l d) l.
Proof.
  intros H. rewrite (app_removelast_last d H) at 2.
  apply in_or_app. right. left. reflexivity.
Qed.

(** X5. When line 115 is reached, the predictors and the target together
    are the filtered matrix: every kept row is its predictor row followed by
    its target entry.  The predictors have one column less than there are
    sectors, as many rows as the target has entries, and neither holds an
    unresolved value. *)
Theorem estimator_input_recomposes (alldata : DataFrame) (all_output : Series string)
  (out : list string) (A : ndarray) (b : list float) :
  estimator_input alldata all_output = Ok (out, A, b) ->
  exists st,
    build alldata all_output = Ok st /\
    out = stdout st /\
    rows (remove_missing (output_ppp st))
    = map (fun rb => fst rb ++ [snd rb]) (combine (rows A) b) /\
    S (ncols A) = length (sectors_of (index all_output)) /\
    nrows A = length b /\
    length (rows A) = length b /\
    (forall row, In row (rows A) -> length row = ncols A /\ resolved row) /\
    (forall v, In v b -> is_nan v = false).
Proof.
  unfold estimator_input.
  destruct (build alldata all_output) as [st|e] eqn:Hb; cbn [bind]; [|discriminate].
  destruct (build_shape alldata all_output st Hb) as [_ [Hk [_ Hlen]]].
  intros H. exists st. split; [reflexivity|].
  unfold last_column in H. rewrite remove_missing_ncols, Hk in H.
  destruct (length (sectors_of (index all_output))) as [|k] eqn:Ek;
    cbn [bind] in H; [discriminate|].
  inversion H; subst out A b; clear H.
  set (pre := output_ppp st) in *.
  assert (Hrow : forall row, In row (rows (remove_missing pre)) ->
                             length row = S k /\ resolved row).
  { intros row Hin. apply remove_missing_resolved in Hin. destruct Hin as [Hin Hres].
    split; [exact (Hlen row Hin) | exact Hres]. }
  assert (Hne : forall row, In row (rows (remove_missing pre)) -> row <> []).
  { intros row Hin Hnil. apply Hrow in Hin. rewrite Hnil in Hin. cbn in Hin. lia. }
  split; [reflexivity|].
  cbn [all_but_last_column rows nrows ncols]. split.
  - rewrite combine_maps, map_map. cbn [fst snd].
    rewrite <- (map_id (rows (remove_missing pre))) at 1.
    apply map_ext_in. intros row Hin. apply app_removelast_last. exact (Hne row Hin).
  - split; [rewrite remove_missing_ncols, Hk; reflexivity|].
    split; [rewrite length_map; reflexivity|].
    split; [rewrite !length_map; reflexivity|]. split.
    + intros row Hin. apply in_map_iff in Hin. destruct Hin as [full [<- Hin]].
      destruct (Hrow full Hin) as [Hlen' Hres]. split.
      * rewrite length_removelast, Hlen', remove_missing_ncols, Hk. cbn. lia.
      * intros v Hv. apply Hres. apply removelast_In. exact Hv.
    + intros v Hin. apply in_map_iff in Hin. destruct Hin as [full [<- Hin]].
      destruct (Hrow full Hin) as [_ Hres]. apply Hres. apply last_In. exact (Hne full Hin).
Qed.

Lemma estimator_input_recomposes_witness :
  exists st,
    build alldata_sample all_output_sample = Ok st /\
    ["FRA_B"%string] = stdout st /\
    rows (remove_missing (output_ppp st))
    = map (fun rb => fst rb ++ [snd rb]) (combine [[5%float]] [10%float]) /\
    S 1 = length (sectors_of (index all_output_sample)) /\
    1 = length [10%float] /\
    length [[5%float]] = length [10%float] /\
    (forall row, In row [[5%float]] -> length row = 1 /\ resolved row) /\
    (forall v, In v [10%float] -> is_nan v = false).
Proof.
  apply (estimator_input_recomposes alldata_sample all_output_sample
           ["FRA_B"%string] {| nrows := 1; ncols := 1; rows := [[5%float]] |} [10%float]).
  reflexivity.
Defined.

(** ** Zero PPP values and the reference country *)

(** X6. On a table with pairwise distinct row labels and the surface-area
    column, and a total-output row with pairwise distinct labels, a PPP value
    of zero raises nothing.  For a key of the total-output row whose value is
    a number, the cell is an infinity when that value is not zero, which does
    not count as unresolved, and not-a-number when it is zero; in both cases
    no line is printed for the key. *)
Theorem zero_ppp_cell (alldata : DataFrame) (all_output areas : Series string)
  (c s : nat) (country sector : string) (ppp : Series string) (o p : float) :
  NoDup (df_index alldata) ->
  NoDup (index all_output) ->
  column alldata "Surface area (sq. km)" = Ok areas ->
  nth_error (df_index alldata) c = Some country ->
  nth_error (sectors_of (index all_output)) s = Some sector ->
  getitem all_output (country ++ "_" ++ sector)%string = Ok (Scalar o) ->
  column alldata "PPP" = Ok ppp ->
  getitem ppp country = Ok (Scalar p) ->
  is_nan o = false ->
  (p =? 0)%float = true ->
  exists st v,
    build alldata all_output = Ok st /\
    cell (output_ppp st) c s = Some v /\
    ((o =? 0)%float = false -> is_infinity v = true /\ is_nan v = false) /\
    ((o =? 0)%float = true -> v = nan) /\
    ~ In (country ++ "_" ++ sector)%string (stdout st).
Proof.
  intros Hcountries Hlabels Hareas Hc Hs Ho Hppp Hp Hnum Hzero.
  destruct (build_cell alldata all_output Hcountries Hlabels areas c s country sector
              Hareas Hc Hs) as [st [Hb Hcell]].
  exists st, (o / p)%float. split; [exact Hb|]. split.
  - rewrite Hcell. f_equal. unfold cell_value, ppp_output, composite.
    rewrite Ho. cbn [bind]. rewrite Hppp. cbn [bind]. rewrite Hp. reflexivity.
  - destruct (div_zero_r o p Hnum Hzero) as [Hinf Hnan].
    split; [exact Hinf|]. split; [exact Hnan|].
    intros Hline.
    apply (printed_only_missing alldata all_output areas ppp st _
             Hcountries Hlabels Hareas Hppp Hb Hline).
    exact (getitem_Ok_In all_output _ _ Ho).
Qed.

Lemma zero_ppp_cell_witness :
  exists st v,
    build alldata_zero_ppp all_output_sample = Ok st /\
    cell (output_ppp st) 0 1 = Some v /\
    ((20 =? 0)%float = false -> is_infinity v = true /\ is_nan v = false) /\
    ((20 =? 0)%float = true -> v = nan) /\
    ~ In "DEU_B"%string (stdout st).
Proof.
  apply (zero_ppp_cell alldata_zero_ppp all_output_sample [("DEU"%string, 357%float)]
           0 1 "DEU" "B" [("DEU"%string, 0%float)] 20%float 0%float).
  - cbn. repeat constructor. intros [].
  - exact sample_labels_distinct.
  - reflexivity.
  - reflexivity.
  - reflexivity.
  - reflexivity.
  - reflexivity.
  - reflexivity.
  - reflexivity.
  - reflexivity.
Defined.

(** X7. The reference country never misses a key: for every extracted
    sector the key "AUS_" followed by the sector is a label of the
    total-output row, so that, on a table with pairwise distinct row labels,
    the surface-area column and the PPP column, and with pairwise distinct
    labels in the total-output row, its lookup yields one value and the build
    prints no line for it. *)
Theorem reference_country_keys_present (alldata : DataFrame)
  (all_output areas ppp : Series string) :
  NoDup (df_index alldata) ->
  NoDup (index all_output) ->
  column alldata "Surface area (sq. km)" = Ok areas ->
  column alldata "PPP" = Ok ppp ->
  exists st,
    build alldata all_output = Ok st /\
    forall sector,
      In sector (sectors_of (index all_output)) ->
      In ("AUS_" ++ sector)%string (index all_output) /\
      (exists o, getitem all_output ("AUS" ++ "_" ++ sector)%string = Ok (Scalar o)) /\
      ~ In ("AUS" ++ "_" ++ sector)%string (stdout st).
Proof.
  intros Hcountries Hlabels Hareas Hppp.
  pose proof (build_result alldata all_output Hcountries Hlabels areas Hareas) as Hb.
  eexists. split; [exact Hb|].
  intros sector Hs.
  pose proof (sectors_of_In _ _ Hs) as Hin.
  split; [exact Hin|]. split; [exact (getitem_In all_output _ Hlabels Hin)|].
  intros Hline.
  exact (printed_only_missing alldata all_output areas ppp _ _
           Hcountries Hlabels Hareas Hppp Hb Hline Hin).
Qed.

Lemma reference_country_keys_present_witness :
  exists st,
    build alldata_sample all_output_sample = Ok st /\
    forall sector,
      In sector (sectors_of (index all_output_sample)) ->
      In ("AUS_" ++ sector)%string (index all_output_sample) /\
      (exists o, getitem all_output_sample ("AUS" ++ "_" ++ sector)%string = Ok (Scalar o)) /\
      ~ In ("AUS" ++ "_" ++ sector)%string (stdout st).
Proof.
  apply (reference_country_keys_present alldata_sample all_output_sample
           [("DEU"%string, 357); ("FRA"%string, 549); ("ZZZ"%string, 1)]%float
           [("DEU"%string, 2); ("FRA"%string, 0.5); ("ZZZ"%string, nan)]%float).
  - exact sample_countries_distinct.
  - exact sample_labels_distinct.
  - reflexivity.
  - reflexivity.
Defined.

(** ** More on the harmonized table *)

Lemma lookup_In_NoDup (columns : list (string * list float)) (name : string)
  (vals : list float) :
  NoDup (map fst columns) -> In (name, vals) columns ->
  lookup_column columns name = Some vals.
Proof.
  induction columns as [|[name' vals'] columns IH]; cbn [map fst lookup_column];
    intros Hnd Hin; [destruct Hin|].
  inversion Hnd as [|? ? Hnot Hrest]; subst.
  destruct Hin as [Heq|Hin].
  - inversion Heq; subst. rewrite String.eqb_refl. reflexivity.
  - destruct (String.eqb name' name) eqn:E; [|exact (IH Hrest Hin)].
    apply String.eqb_eq in E. subst name'. exfalso. apply Hnot.
    apply (in_map fst) in Hin. exact Hin.
Qed.

Lemma collected_lengths (unstats_get : string -> observations)
  (inds : list (string * string)) (df : DataFrame) :
  collected unstats_get inds df ->
  NoDup (map snd inds) ->
  forall name vals, In (name, vals) (df_columns df) ->
                    length vals = length (df_index df).
Proof.
  intros [Hnames [_ Hcols]] Hnd name vals Hin.
  assert (Hlook : lookup_column (df_columns df) name = Some vals).
  { apply lookup_In_NoDup; [rewrite Hnames; exact Hnd | exact Hin]. }
  assert (Hname : In name (map snd inds)).
  { rewrite <- Hnames. apply (in_map fst) in Hin. exact Hin. }
  apply in_map_iff in Hname. destruct Hname as [ind [<- Hind]].
  rewrite (Hcols ind Hind) in Hlook. inversion Hlook. apply length_map.
Qed.

(** X8. When every answer of the indicator service has pairwise distinct
    country labels, the harmonizer raises nothing.  Its table has the nine
    indicator columns in the order of the list of line 47, followed by the
    PPP column, and every column holds exactly one value per row label. *)
Theorem harmonized_table_columns (unstats_get : string -> observations) :
  distinct_areas unstats_get indicators ->
  exists alldata,
    harmonize unstats_get = Ok alldata /\
    map fst (df_columns alldata)
    = [ "Agricultural land (% of land area)";
        "Forest area (sq. km)";
        "CO2 emissions (metric tons per capita)";
        "GDP (current US$)";
        "GNI per capita, Atlas method (current US$)";
        "GNI per capita, PPP (current international $)";
        "GNI, Atlas method (current US$)";
        "GNI, PPP (current international $)";
        "Surface area (sq. km)";
        "PPP" ]%string /\
    forall name vals,
      In (name, vals) (df_columns alldata) ->
      length vals = length (df_index alldata).
Proof.
  intros Hareas.
  destruct (harmonize_collected unstats_get Hareas)
    as [df [q [alldata [Hinv [Hq [Hh [Hidx [_ [_ Hcols]]]]]]]]].
  pose proof Hinv as [Hnames _].
  assert (Hlen : length q = length (df_index df)).
  { rewrite Hq. apply length_map. }
  exists alldata. split; [exact Hh|]. rewrite Hcols. split.
  - rewrite map_app, ensure_names, Hnames. reflexivity.
  - intros name vals Hin. rewrite Hidx. apply in_app_or in Hin.
    destruct Hin as [Hin|[Heq|[]]].
    + unfold ensure_valid_index in Hin. destruct (df_index df) as [|l ls] eqn:E.
      * cbn [df_columns] in Hin. apply in_map_iff in Hin.
        destruct Hin as [c [Heq _]]. inversion Heq; subst vals.
        rewrite repeat_length. exact Hlen.
      * rewrite <- E.
        exact (collected_lengths unstats_get indicators df Hinv
                 indicator_names_distinct name vals Hin).
    + inversion Heq; subst. unfold values. rewrite length_map. exact Hlen.
Qed.

Lemma harmonized_table_columns_witness :
  exists alldata,
    harmonize unstats_sample = Ok alldata /\
    map fst (df_columns alldata)
    = [ "Agricultural land (% of land area)";
        "Forest area (sq. km)";
        "CO2 emissions (metric tons per capita)";
        "GDP (current US$)";
        "GNI per capita, Atlas method (current US$)";
        "GNI per capita, PPP (current international $)";
        "GNI, Atlas method (current US$)";
        "GNI, PPP (current international $)";
        "Surface area (sq. km)";
        "PPP" ]%string /\
    forall name vals,
      In (name, vals) (df_columns alldata) ->
      length vals = length (df_index alldata).
Proof.
  exact (harmonized_table_columns unstats_sample sample_areas_distinct).
Defined.

(** X9. When every answer of the indicator service has pairwise distinct
    country labels, the row labels of the harmonized table are those of the
    first indicator series, in the order of the list of line 47, that has
    any: when the agricultural-land series is not empty they are its labels,
    and a country that only later series know has no row. *)
Theorem harmonized_index_is_first_series (unstats_get : string -> observations) :
  distinct_areas unstats_get indicators ->
  exists alldata,
    harmonize unstats_get = Ok alldata /\
    df_index alldata = first_index (sequences unstats_get indicators) /\
    (index (sequence_of (unstats_get "AG_LND_AGRI_ZS"%string)) <> [] ->
     df_index alldata = index (sequence_of (unstats_get "AG_LND_AGRI_ZS"%string)) /\
     forall country,
       ~ In country (index (sequence_of (unstats_get "AG_LND_AGRI_ZS"%string))) ->
       ~ In country (df_index alldata)).
Proof.
  intros Hareas.
  destruct (harmonize_collected unstats_get Hareas)
    as [df [q [alldata [Hinv [_ [Hh [Hidx' _]]]]]]].
  destruct Hinv as [_ [Hidx _]].
  exists alldata. split; [exact Hh|].
  rewrite Hidx', Hidx. split; [reflexivity|].
  intros Hne.
  assert (Heq : first_index (sequences unstats_get indicators)
                = index (sequence_of (unstats_get "AG_LND_AGRI_ZS"%string))).
  { unfold sequences, indicators. cbn [map fst first_index].
    destruct (index (sequence_of (unstats_get "AG_LND_AGRI_ZS"%string)));
      [congruence | reflexivity]. }
  rewrite Heq. split; [reflexivity | auto].
Qed.

Lemma harmonized_index_is_first_series_witness :
  exists alldata,
    harmonize unstats_sample = Ok alldata /\
    df_index alldata = first_index (sequences unstats_sample indicators) /\
    (index (sequence_of (unstats_sample "AG_LND_AGRI_ZS"%string)) <> [] ->
     df_index alldata = index (sequence_of (unstats_sample "AG_LND_AGRI_ZS"%string)) /\
     forall country,
       ~ In country (index (sequence_of (unstats_sample "AG_LND_AGRI_ZS"%string))) ->
       ~ In country (df_index alldata)).
Proof.
  exact (harmonized_index_is_first_series unstats_sample sample_areas_distinct).
Defined.

Lemma partial_areas_distinct : distinct_areas unstats_partial indicators.
Proof.
  intros ind Hin. cbn in Hin.
  repeat (destruct Hin as [<-|Hin];
          [cbn; repeat constructor; cbn; intuition discriminate|]).
  destruct Hin.
Qed.

(** X10. When every answer of the indicator service has pairwise distinct
    country labels, every indicator column of the harmonized table is the
    indicator's series read by country label: a row whose country the series
    has holds the series' value, and a row whose country the series lacks
    holds not-a-number. *)
Theorem harmonized_cells_follow_labels (unstats_get : string -> observations)
  (name description : string) :
  distinct_areas unstats_get indicators ->
  In (name, description) indicators ->
  exists alldata col,
    harmonize unstats_get = Ok alldata /\
    column alldata description = Ok col /\
    index col = df_index alldata /\
    col = map (fun country =>
                 (country, value_or_nan (sequence_of (unstats_get name)) country))
              (df_index alldata) /\
    forall i country v,
      nth_error col i = Some (country, v) ->
      (forall w, In (country, w) (sequence_of (unstats_get name)) -> v = w) /\
      (~ In country (index (sequence_of (unstats_get name))) -> v = nan).
Proof.
  intros Hareas Hind.
  destruct (harmonize_collected unstats_get Hareas)
    as [df [q [alldata [Hinv [_ [Hh [Hidx [_ [Hother _]]]]]]]]].
  pose proof (collected_column unstats_get df name description Hinv Hind) as Hcol.
  assert (Hne : description <> "PPP"%string).
  { intros ->. apply ppp_is_no_indicator. apply (in_map snd) in Hind. exact Hind. }
  pose proof (Hareas (name, description) Hind) as Hnd. cbn [fst] in Hnd.
  eexists alldata, _.
  split; [exact Hh|]. split; [exact (Hother _ _ Hne Hcol)|]. rewrite Hidx.
  split; [unfold index; rewrite map_map; apply map_id|].
  split; [reflexivity|].
  intros i country v Hi. rewrite nth_error_map in Hi.
  destruct (nth_error (df_index df) i) as [label|]; [|discriminate].
  inversion Hi; subst. unfold value_or_nan. split.
  - intros w Hw. rewrite (getitem_NoDup _ _ _ Hnd Hw). reflexivity.
  - intros Hnot. rewrite (getitem_not_In _ _ Hnot). reflexivity.
Qed.

Lemma harmonized_cells_follow_labels_witness :
  exists alldata col,
    harmonize unstats_partial = Ok alldata /\
    column alldata "GNI per capita, Atlas method (current US$)" = Ok col /\
    index col = df_index alldata /\
    col = map (fun country =>
                 (country, value_or_nan (sequence_of (unstats_partial "NY_GNP_PCAP_CD")) country))
              (df_index alldata) /\
    forall i country v,
      nth_error col i = Some (country, v) ->
      (forall w, In (country, w) (sequence_of (unstats_partial "NY_GNP_PCAP_CD")) -> v = w) /\
      (~ In country (index (sequence_of (unstats_partial "NY_GNP_PCAP_CD"))) -> v = nan).
Proof.
  apply (harmonized_cells_follow_labels unstats_partial
           "NY_GNP_PCAP_CD" "GNI per capita, Atlas method (current US$)").
  - exact partial_areas_distinct.
  - cbn. tauto.
Defined.

(** X11. When every answer of the indicator service has pairwise distinct
    country labels: where the Atlas value or the PPP value of a country is
    not-a-number, so is its entry of the PPP column. *)
Theorem ppp_missing_when_either_missing (unstats_get : string -> observations) :
  distinct_areas unstats_get indicators ->
  exists alldata atlas gni ppp,
    harmonize unstats_get = Ok alldata /\
    column alldata "GNI per capita, Atlas method (current US$)" = Ok atlas /\
    column alldata "GNI per capita, PPP (current international $)" = Ok gni /\
    column alldata "PPP" = Ok ppp /\
    forall i country a g,
      nth_error atlas i = Some (country, a) ->
      nth_error gni i = Some (country, g) ->
      is_nan a = true \/ is_nan g = true ->
      nth_error ppp i = Some (country, nan).
Proof.
  intros Hareas.
  destruct (harmonize_collected unstats_get Hareas)
    as [df [q [alldata [Hinv [Hq [Hh [_ [Hppp [Hother _]]]]]]]]].
  pose proof (collected_column unstats_get df "NY_GNP_PCAP_CD" gni_atlas Hinv
                ltac:(cbn; tauto)) as Ha.
  pose proof (collected_column unstats_get df "NY_GNP_PCAP_PP_CD" gni_ppp Hinv
                ltac:(cbn; tauto)) as Hg.
  eexists alldata, _, _, q.
  split; [exact Hh|].
  split; [apply Hother; [discriminate | exact Ha]|].
  split; [apply Hother; [discriminate | exact Hg]|].
  split; [exact Hppp|].
  intros i country a g Hai Hgi Hnan.
  rewrite Hq, <- truediv_maps.
  rewrite (truediv_nth _ _ i _ _ _ _ Hai Hgi). do 2 f_equal.
  destruct Hnan as [Hna|Hng]; [apply div_nan_l | apply F64Facts.div_nan_r]; assumption.
Qed.

Lemma ppp_missing_when_either_missing_witness :
  exists alldata atlas gni ppp,
    harmonize unstats_partial = Ok alldata /\
    column alldata "GNI per capita, Atlas method (current US$)" = Ok atlas /\
    column alldata "GNI per capita, PPP (current international $)" = Ok gni /\
    column alldata "PPP" = Ok ppp /\
    forall i country a g,
      nth_error atlas i = Some (country, a) ->
      nth_error gni i = Some (country, g) ->
      is_nan a = true \/ is_nan g = true ->
      nth_error ppp i = Some (country, nan).
Proof.
  exact (ppp_missing_when_either_missing unstats_partial partial_areas_distinct).
Defined.

(** ** From the indicator series to the rows that are estimated *)

(** The row of a country whose PPP value is not-a-number. *)
Lemma nan_ppp_row (alldata : DataFrame) (all_output areas : Series string)
  (c : nat) (country : string) (ppp : Series string) (p : float) :
  NoDup (df_index alldata) ->
  NoDup (index all_output) ->
  column alldata "Surface area (sq. km)" = Ok areas ->
  nth_error (df_index alldata) c = Some country ->
  column alldata "PPP" = Ok ppp ->
  getitem ppp country = Ok (Scalar p) ->
  is_nan p = true ->
  exists st,
    build alldata all_output = Ok st /\
    (forall s sector,
        nth_error (sectors_of (index all_output)) s = Some sector ->
        cell (output_ppp st) c s = Some nan) /\
    (sectors_of (index all_output) <> [] ->
     ~ In c (retained_rows (output_ppp st))).
Proof.
  intros Hcountries Hlabels Hareas Hc Hppp Hp Hnan.
  eexists. split; [apply (build_result alldata all_output Hcountries Hlabels areas Hareas)|].
  cbn [output_ppp].
  assert (Hrow : nth_error
                   (rows {| nrows := length (df_index alldata);
                            ncols := length (sectors_of (index all_output));
                            rows := map (fun country =>
                                           map (cell_value alldata all_output country)
                                               (sectors_of (index all_output)))
                                        (df_index alldata) |}) c
                 = Some (map (cell_value alldata all_output country)
                             (sectors_of (index all_output)))).
  { cbn [rows]. erewrite map_nth_error by exact Hc. reflexivity. }
  assert (Hcell : forall sector, cell_value alldata all_output country sector = nan).
  { intros sector. eapply missing_ppp_value; eassumption. }
  split.
  - intros s sector Hs. unfold cell. rewrite Hrow.
    erewrite map_nth_error by exact Hs. rewrite Hcell. reflexivity.
  - intros Hne. rewrite (retained_rows_spec _ _ _ Hrow). intros Hres.
    destruct (sectors_of (index all_output)) as [|sector0 rest]; [congruence|].
    specialize (Hres (cell_value alldata all_output country sector0)
                  (or_introl eq_refl)).
    rewrite Hcell in Hres. discriminate.
Qed.

(** X12. From the series to the filter.  When every answer of the indicator
    service and the total-output row have pairwise distinct labels, the
    harmonizer returns a table on which the build returns; the matrix that
    line 113 leaves consists, in order, of the rows at the kept positions;
    and a country of the table that the Atlas series or the PPP series of GNI
    per capita lacks has not-a-number in every cell of its design-matrix row
    and, when the sector list is not empty, its position is not kept: its
    row does not reach the estimator. *)
Theorem country_without_gni_is_dropped (unstats_get : string -> observations)
  (all_output : Series string) :
  distinct_areas unstats_get indicators ->
  NoDup (index all_output) ->
  exists alldata st,
    harmonize unstats_get = Ok alldata /\
    build alldata all_output = Ok st /\
    rows (remove_missing (output_ppp st))
    = map (fun i => nth i (rows (output_ppp st)) []) (retained_rows (output_ppp st)) /\
    StronglySorted lt (retained_rows (output_ppp st)) /\
    forall c country,
      nth_error (df_index alldata) c = Some country ->
      ~ In country (index (sequence_of (unstats_get "NY_GNP_PCAP_CD"%string))) \/
      ~ In country (index (sequence_of (unstats_get "NY_GNP_PCAP_PP_CD"%string))) ->
      (forall s sector,
          nth_error (sectors_of (index all_output)) s = Some sector ->
          cell (output_ppp st) c s = Some nan) /\
      (sectors_of (index all_output) <> [] ->
       ~ In c (retained_rows (output_ppp st)) /\
       forall row,
         nth_error (rows (output_ppp st)) c = Some row ->
         ~ resolved row).
Proof.
  intros Hareas Hlabels.
  destruct (harmonize_collected unstats_get Hareas)
    as [df [q [alldata [Hinv [Hq [Hh [Hidx [Hppp [Hother _]]]]]]]]].
  pose proof (collected_column unstats_get df "AG_SRF_TOTL_K2" "Surface area (sq. km)"
                Hinv ltac:(cbn; tauto)) as Hsurface.
  apply Hother in Hsurface; [|discriminate].
  assert (Hcountries : NoDup (df_index alldata)).
  { rewrite Hidx. destruct Hinv as [_ [-> _]]. apply first_index_NoDup.
    intros s Hs. unfold sequences in Hs. apply in_map_iff in Hs.
    destruct Hs as [ind [<- Hind]]. exact (Hareas ind Hind). }
  pose proof (build_result alldata all_output Hcountries Hlabels _ Hsurface) as Hb.
  eexists alldata, _. split; [exact Hh|]. split; [exact Hb|].
  split; [apply remove_missing_rows|]. split; [apply retained_rows_sorted|].
  intros c country Hc Hmiss.
  assert (Hq' : index q = df_index alldata).
  { rewrite Hidx, Hq. unfold index. rewrite map_map. apply map_id. }
  assert (Hqd : NoDup (index q)) by (rewrite Hq'; exact Hcountries).
  set (p := (value_or_nan (sequence_of (unstats_get "NY_GNP_PCAP_CD"%string)) country
             / value_or_nan (sequence_of (unstats_get "NY_GNP_PCAP_PP_CD"%string)) country)%float).
  assert (Hp : getitem q country = Ok (Scalar p)).
  { apply (getitem_NoDup q country p Hqd). rewrite Hq. apply in_map_iff.
    exists country. split; [reflexivity|]. rewrite <- Hidx.
    eapply nth_error_In. exact Hc. }
  assert (Hnan : is_nan p = true).
  { unfold p, value_or_nan. destruct Hmiss as [Hmiss|Hmiss];
      rewrite (getitem_not_In _ _ Hmiss).
    - rewrite div_nan_l; reflexivity.
    - rewrite F64Facts.div_nan_r; reflexivity. }
  destruct (nan_ppp_row alldata all_output _ c country q p
              Hcountries Hlabels Hsurface Hc Hppp Hp Hnan) as [st' [Hb' [Hcells Hdrop]]].
  rewrite Hb in Hb'. inversion Hb'; subst st'.
  split; [exact Hcells|].
  intros Hne. split; [exact (Hdrop Hne)|].
  intros row Hrow Hres. apply (Hdrop Hne).
  apply (retained_rows_spec _ _ _ Hrow). exact Hres.
Qed.

Lemma country_without_gni_is_dropped_witness :
  exists alldata st,
    harmonize unstats_partial = Ok alldata /\
    build alldata all_output_sample = Ok st /\
    rows (remove_missing (output_ppp st))
    = map (fun i => nth i (rows (output_ppp st)) []) (retained_rows (output_ppp st)) /\
    StronglySorted lt (retained_rows (output_ppp st)) /\
    forall c country,
      nth_error (df_index alldata) c = Some country ->
      ~ In country (index (sequence_of (unstats_partial "NY_GNP_PCAP_CD"%string))) \/
      ~ In country (index (sequence_of (unstats_partial "NY_GNP_PCAP_PP_CD"%string))) ->
      (forall s sector,
          nth_error (sectors_of (index all_output_sample)) s = Some sector ->
          cell (output_ppp st) c s = Some nan) /\
      (sectors_of (index all_output_sample) <> [] ->
       ~ In c (retained_rows (output_ppp st)) /\
       forall row,
         nth_error (rows (output_ppp st)) c = Some row ->
         ~ resolved row).
Proof.
  exact (country_without_gni_is_dropped unstats_partial all_output_sample
           partial_areas_distinct sample_labels_distinct).
Defined.

(** On the sample answers FRA has no Atlas value: its row is removed. *)
Example country_without_gni_sample :
  exists alldata st,
    harmonize unstats_partial = Ok alldata /\
    df_index alldata = ["DEU"; "FRA"]%string /\
    build alldata all_output_sample = Ok st /\
    stdout st = ["FRA_B"%string] /\
    retained_rows (output_ppp st) = [0] /\
    rows (remove_missing (output_ppp st)) = [[20; 40]%float].
Proof.
  eexists. eexists. split; [vm_compute; reflexivity|].
  split; [reflexivity|]. split; [vm_compute; reflexivity|].
  split; [reflexivity|]. split; reflexivity.
Qed.

(** ** The address of an atlas query *)

Module AtlasFacts.
Import Atlas.

Lemma cut_at_slash (a : string) :
  forall a' r r',
    slash_free a = true -> slash_free a' = true ->
    (a ++ String "/" r)%string = (a' ++ String "/" r')%string ->
    a = a' /\ r = r'.
Proof.
  induction a as [|c a IH]; intros a' r r' Ha Ha' H.
  - destruct a' as [|c' a']; cbn in H.
    + inversion H. split; reflexivity.
    + inversion H; subst c'. cbn in Ha'. discriminate.
  - destruct a' as [|c' a']; cbn in H.
    + inversion H; subst c. cbn in Ha. discriminate.
    + inversion H; subst c'.
      cbn in Ha, Ha'. apply andb_true_iff in Ha, Ha'.
      destruct (IH a' r r' (proj2 Ha) (proj2 Ha')) as [-> ->]; [assumption|].
      split; reflexivity.
Qed.

Lemma cut_last_slash (a : string) :
  forall a', (a ++ "/")%string = (a' ++ "/")%string -> a = a'.
Proof.
  induction a as [|c a IH]; intros a' H.
  - destruct a' as [|c' a']; [reflexivity|].
    cbn in H. inversion H. destruct a'; discriminate.
  - destruct a' as [|c' a']; cbn in H.
    + inversion H. destruct a; discriminate.
    + inversion H. f_equal. apply IH. assumption.
Qed.

Lemma digits_slash_free (d : Decimal.uint) :
  slash_free (NilEmpty.string_of_uint d) = true.
Proof.
  induction d; cbn; auto.
Qed.

Lemma format_int_slash_free (n : Z) : slash_free (format_int n) = true.
Proof.
  unfold format_int, NilZero.string_of_int, NilZero.string_of_uint.
  destruct (Z.to_int n) as [d|d]; destruct d; cbn; try reflexivity;
    apply digits_slash_free.
Qed.

Lemma format_int_inj (n n' : Z) : format_int n = format_int n' -> n = n'.
Proof.
  unfold format_int. intros H.
  assert (Hnn : forall z, Z.to_int z <> Decimal.Pos Decimal.Nil /\
                          Z.to_int z <> Decimal.Neg Decimal.Nil).
  { intros [|p|p]; cbn; split; try discriminate;
      intros Heq; inversion Heq as [Hp]; exact (Unsigned.to_uint_nonnil p Hp). }
  apply (f_equal NilZero.int_of_string) in H.
  rewrite !NilZero.isi in H by apply Hnn.
  inversion H as [Hint].
  rewrite <- (DecimalZ.of_to n), <- (DecimalZ.of_to n'), Hint. reflexivity.
Qed.

Lemma direction_inj (export export' : bool) :
  (if export then "export" else "import")%string
  = (if export' then "export" else "import")%string ->
  export = export'.
Proof. destruct export, export'; intros H; try reflexivity; discriminate. Qed.

Lemma direction_slash_free (export : bool) :
  slash_free (if export then "export" else "import") = true.
Proof. destruct export; reflexivity. Qed.

(** X13. The address built by [atlas_api_call] determines the request: when
    the model and the origin and destination parts hold no "/", two calls
    that open the same address have the same model, the same flow direction,
    the same year, and the same origin, destination and product parts (a
    missing origin or destination counting as "all", a missing product as
    "show"). *)
Theorem atlas_url_determines_request
  (model model' : string) (export export' : bool) (year year' : Z)
  (origin origin' destination destination' product product' : option string) :
  slash_free model = true -> slash_free model' = true ->
  slash_free (or_default "all" origin) = true ->
  slash_free (or_default "all" origin') = true ->
  slash_free (or_default "all" destination) = true ->
  slash_free (or_default "all" destination') = true ->
  atlas_url model export year origin destination product
  = atlas_url model' export' year' origin' destination' product' ->
  model = model' /\ export = export' /\ year = year' /\
  or_default "all" origin = or_default "all" origin' /\
  or_default "all" destination = or_default "all" destination' /\
  or_default "show" product = or_default "show" product'.
Proof.
  intros Hm Hm' Ho Ho' Hd Hd' H. unfold atlas_url in H.
  apply prefix_app_inj in H.
  apply cut_at_slash in H; [|assumption|assumption]. destruct H as [-> H].
  apply cut_at_slash in H; [|apply direction_slash_free|apply direction_slash_free].
  destruct H as [He H]. apply direction_inj in He. subst export'.
  apply cut_at_slash in H; [|apply format_int_slash_free|apply format_int_slash_free].
  destruct H as [Hy H]. apply format_int_inj in Hy. subst year'.
  apply cut_at_slash in H; [|assumption|assumption]. destruct H as [Horig H].
  apply cut_at_slash in H; [|assumption|assumption]. destruct H as [Hdest H].
  apply cut_last_slash in H.
  repeat split; assumption.
Qed.

Lemma atlas_url_determines_request_witness :
  "hs07"%string = "hs07"%string /\ true = true /\ 2014%Z = 2014%Z /\
  or_default "all" (Some "deu"%string) = or_default "all" (Some "deu"%string) /\
  or_default "all" None = or_default "all" (Some "all"%string) /\
  or_default "show" None = or_default "show" (Some "show"%string).
Proof.
  apply (atlas_url_determines_request "hs07" "hs07" true true 2014 2014
           (Some "deu"%string) (Some "deu"%string) None (Some "all"%string)
           None (Some "show"%string)); reflexivity.
Defined.

(** With the defaults of the parameters, in a module loaded in 2016. *)
Example atlas_url_defaults :
  atlas_url "hs07" true (default_year 2016) None None None
  = "http://atlas.media.mit.edu/hs07/export/2014/all/all/show/"%string.
Proof. reflexivity. Qed.

End AtlasFacts.

(** ** The land areas and the estimate *)

Lemma for_each_agree {A S : Type} (body body' : S -> A -> result S) (l : list A) :
  (forall st x, body st x = body' st x) ->
  forall st, for_each body l st = for_each body' l st.
Proof.
  intros H. induction l as [|x l IH]; intros st; cbn [for_each]; [reflexivity|].
  rewrite H. destruct (body' st x); cbn [bind]; [apply IH | reflexivity].
Qed.

Lemma for_each_commute {A S : Type} (f : S -> S) (body : S -> A -> result S)
  (l : list A) :
  (forall st x, body (f st) x = (st' <- body st x ;; Ok (f st'))) ->
  forall st, for_each body l (f st) = (st' <- for_each body l st ;; Ok (f st')).
Proof.
  intros H. induction l as [|x l IH]; intros st; cbn [for_each bind]; [reflexivity|].
  rewrite H. destruct (body st x); cbn [bind]; [apply IH | reflexivity].
Qed.

(** The loop body hands the land areas on untouched. *)
Lemma assign_cell_with_area (alldata : DataFrame) (all_output : Series string)
  (c : nat) (country : string) (areas : list float) (st : state) (ss : nat * string) :
  assign_cell alldata all_output c country (with_area areas st) ss
  = (st' <- assign_cell alldata all_output c country st ss ;; Ok (with_area areas st')).
Proof.
  unfold assign_cell, with_area. cbn [countryarea output_ppp stdout].
  destruct (ppp_output alldata all_output country (snd ss)) as [v|[]]; cbn [bind];
    try reflexivity;
    match goal with
    | |- context [setitem ?a ?i ?j ?w] => destruct (setitem a i j w)
    end; reflexivity.
Qed.

(** A series stored under the frame's own index leaves every other column
    as it reads. *)
Lemma set_column_keeps_columns (df df' : DataFrame) (name other : string)
  (s : Series string) :
  index s = df_index df ->
  set_column df name s = Ok df' ->
  other <> name ->
  column df' other = column df other.
Proof.
  intros Hidx Hset Hne. unfold set_column, ensure_valid_index in Hset.
  destruct (df_index df) as [|label labels] eqn:E.
  - cbn [df_index df_columns] in Hset.
    destruct (list_eq_dec string_dec (index s) (index s)) as [_|N]; [|congruence].
    cbn [bind] in Hset. inversion Hset; subst df'. unfold column.
    cbn [df_index df_columns]. rewrite lookup_put_other by exact Hne.
    rewrite lookup_refilled, E, Hidx.
    destruct (lookup_column (df_columns df) other); reflexivity.
  - rewrite E in Hset.
    destruct (list_eq_dec string_dec (index s) (label :: labels)) as [_|N]; [|congruence].
    cbn [bind] in Hset. inversion Hset; subst df'. unfold column.
    cbn [df_index df_columns]. rewrite lookup_put_other by exact Hne.
    rewrite ?E. reflexivity.
Qed.

(** The build reads two things of the table beside the land areas: its row
    labels and its PPP column. *)
Lemma build_with_area (alldata alldata' : DataFrame) (all_output : Series string)
  (areas areas' : Series string) :
  df_index alldata' = df_index alldata ->
  column alldata' "PPP" = column alldata "PPP" ->
  column alldata "Surface area (sq. km)" = Ok areas ->
  column alldata' "Surface area (sq. km)" = Ok areas' ->
  build alldata' all_output
  = (st <- build alldata all_output ;; Ok (with_area (values areas') st)).
Proof.
  intros Hidx Hppp Hareas Hareas'. unfold build.
  rewrite Hareas, Hareas', Hidx. cbn [bind].
  rewrite <- (for_each_commute (with_area (values areas'))
                (fill_row alldata all_output (sectors_of (index all_output)))).
  - apply for_each_agree. intros st cc. unfold fill_row.
    apply for_each_agree. intros st' ss. unfold assign_cell, ppp_output.
    rewrite Hppp. reflexivity.
  - intros st cc. unfold fill_row. apply for_each_commute.
    intros st' ss. apply assign_cell_with_area.
Qed.

(** X14. The land areas of line 87 never reach the estimator.  On a table
    that has the surface-area column, storing any other surface areas (a
    series on the table's row labels) raises nothing and changes what line 87
    reads; a build that returned still returns, with the new land areas and
    the same matrix and printed lines; and what is handed to the estimator
    and the outcome of the run, whether a result or an exception, are as
    they were. *)
Theorem estimate_ignores_countryarea
  (lsq_linear : ndarray -> list float -> result (list float))
  (alldata : DataFrame) (all_output old areas : Series string) :
  index areas = df_index alldata ->
  column alldata "Surface area (sq. km)" = Ok old ->
  exists alldata',
    set_column alldata "Surface area (sq. km)" areas = Ok alldata' /\
    column alldata' "Surface area (sq. km)" = Ok areas /\
    (forall st, build alldata all_output = Ok st ->
                countryarea st = values old /\
                build alldata' all_output
                = Ok {| countryarea := values areas;
                        output_ppp := output_ppp st;
                        stdout := stdout st |}) /\
    estimator_input alldata' all_output = estimator_input alldata all_output /\
    main lsq_linear alldata' all_output = main lsq_linear alldata all_output.
Proof.
  intros Hidx Hold.
  destruct (set_column_same_index alldata "Surface area (sq. km)" areas Hidx)
    as [alldata' [Hset [Hidx' [Hcol _]]]].
  assert (Hppp : column alldata' "PPP" = column alldata "PPP").
  { apply (set_column_keeps_columns alldata alldata' "Surface area (sq. km)" "PPP" areas
             Hidx Hset). discriminate. }
  pose proof (build_with_area alldata alldata' all_output old areas
                Hidx' Hppp Hold Hcol) as Hb.
  pose proof (build_with_area alldata alldata all_output old old
                eq_refl eq_refl Hold Hold) as Hself.
  assert (He : estimator_input alldata' all_output = estimator_input alldata all_output).
  { unfold estimator_input. rewrite Hb.
    destruct (build alldata all_output) as [st|e]; reflexivity. }
  exists alldata'. split; [exact Hset|]. split; [exact Hcol|]. split.
  - intros st Hst. rewrite Hst in Hb, Hself. cbn [bind] in Hb, Hself.
    split; [|exact Hb]. inversion Hself as [Heq]. rewrite Heq at 1. reflexivity.
  - split; [exact He|]. unfold main. rewrite He. reflexivity.
Qed.

Lemma estimate_ignores_countryarea_witness :
  exists alldata',
    set_column alldata_sample "Surface area (sq. km)"
      [("DEU"%string, 1); ("FRA"%string, 1); ("ZZZ"%string, 1)]%float = Ok alldata' /\
    column alldata' "Surface area (sq. km)"
    = Ok [("DEU"%string, 1); ("FRA"%string, 1); ("ZZZ"%string, 1)]%float /\
    (forall st, build alldata_sample all_output_sample = Ok st ->
                countryarea st
                = values [("DEU"%string, 357); ("FRA"%string, 549); ("ZZZ"%string, 1)]%float /\
                build alldata' all_output_sample
                = Ok {| countryarea :=
                          values [("DEU"%string, 1); ("FRA"%string, 1); ("ZZZ"%string, 1)]%float;
                        output_ppp := output_ppp st;
                        stdout := stdout st |}) /\
    estimator_input alldata' all_output_sample
    = estimator_input alldata_sample all_output_sample /\
    main (fun A _ => Ok (repeat 0.5%float (ncols A))) alldata' all_output_sample
    = main (fun A _ => Ok (repeat 0.5%float (ncols A))) alldata_sample all_output_sample.
Proof.
  apply (estimate_ignores_countryarea (fun A _ => Ok (repeat 0.5%float (ncols A)))
           alldata_sample all_output_sample
           [("DEU"%string, 357); ("FRA"%string, 549); ("ZZZ"%string, 1)]%float
           [("DEU"%string, 1); ("FRA"%string, 1); ("ZZZ"%string, 1)]%float);
    reflexivity.
Defined.

(** X15. Pairwise distinct column labels give pairwise distinct sector
    names, each of them the remainder of a column label that begins with
    "AUS_", and never more names than there are columns. *)
Theorem sectors_distinct (columns : list string) :
  NoDup columns ->
  NoDup (sectors_of columns) /\
  (forall sector, In sector (sectors_of columns) ->
                  In ("AUS_" ++ sector)%string columns) /\
  length (sectors_of columns) <= length columns.
Proof.
  intros Hnd. split; [exact (sectors_of_NoDup columns Hnd)|].
  split; [exact (sectors_of_In columns)|].
  clear Hnd. induction columns as [|col cols IH]; cbn [sectors_of length]; [lia|].
  destruct (Py.startswith col reference_prefix); cbn [length]; lia.
Qed.

Lemma sectors_distinct_witness :
  NoDup (sectors_of (index all_output_sample)) /\
  (forall sector, In sector (sectors_of (index all_output_sample)) ->
                  In ("AUS_" ++ sector)%string (index all_output_sample)) /\
  length (sectors_of (index all_output_sample)) <= length (index all_output_sample).
Proof.
  apply sectors_distinct.
  cbn. repeat constructor; cbn; intuition discriminate.
Defined.

(** ** Which countries reach the estimator *)

(** X16. On a table with pairwise distinct row labels, the surface-area
    column and the PPP column, and a total-output row with pairwise distinct
    labels: the matrix that line 113 leaves consists, in order, of the rows
    at the kept positions, and the position of a country is kept exactly
    when, for every sector, the composite key is in the total-output row and
    the quotient of its value by the country's PPP value is a number. *)
Theorem row_kept_iff_all_quotients_numbers (alldata : DataFrame)
  (all_output areas ppp : Series string) (c : nat) (country : string) (p : float) :
  NoDup (df_index alldata) ->
  NoDup (index all_output) ->
  column alldata "Surface area (sq. km)" = Ok areas ->
  nth_error (df_index alldata) c = Some country ->
  column alldata "PPP" = Ok ppp ->
  getitem ppp country = Ok (Scalar p) ->
  exists st,
    build alldata all_output = Ok st /\
    rows (remove_missing (output_ppp st))
    = map (fun i => nth i (rows (output_ppp st)) []) (retained_rows (output_ppp st)) /\
    StronglySorted lt (retained_rows (output_ppp st)) /\
    (In c (retained_rows (output_ppp st)) <->
     forall sector,
       In sector (sectors_of (index all_output)) ->
       exists o,
         getitem all_output (country ++ "_" ++ sector)%string = Ok (Scalar o) /\
         is_nan (o / p) = false).
Proof.
  intros Hcountries Hlabels Hareas Hc Hppp Hp.
  eexists. split; [apply (build_result alldata all_output Hcountries Hlabels areas Hareas)|].
  split; [apply remove_missing_rows|]. split; [apply retained_rows_sorted|].
  cbn [output_ppp].
  assert (Hrow : nth_error
                   (rows {| nrows := length (df_index alldata);
                            ncols := length (sectors_of (index all_output));
                            rows := map (fun country =>
                                           map (cell_value alldata all_output country)
                                               (sectors_of (index all_output)))
                                        (df_index alldata) |}) c
                 = Some (map (cell_value alldata all_output country)
                             (sectors_of (index all_output)))).
  { cbn [rows]. erewrite map_nth_error by exact Hc. reflexivity. }
  rewrite (retained_rows_spec _ _ _ Hrow). unfold resolved.
  assert (Hval : forall sector,
            cell_value alldata all_output country sector
            = match getitem all_output (composite country sector) with
              | Ok (Scalar o) => (o / p)%float
              | _ => nan
              end).
  { intros sector. unfold cell_value, ppp_output.
    destruct (getitem_unique all_output (composite country sector) Hlabels)
      as [[o Ho]|Ho]; rewrite Ho; cbn [bind]; [|reflexivity].
    rewrite Hppp. cbn [bind]. rewrite Hp. reflexivity. }
  split.
  - intros Hres sector Hs.
    specialize (Hres (cell_value alldata all_output country sector)
                     (in_map _ _ _ Hs)).
    rewrite Hval in Hres. fold (composite country sector).
    destruct (getitem_unique all_output (composite country sector) Hlabels)
      as [[o Ho]|Ho]; rewrite Ho in Hres |- *;
      [exists o; split; [reflexivity | exact Hres] | discriminate].
  - intros Hall v Hv. apply in_map_iff in Hv. destruct Hv as [sector [<- Hs]].
    destruct (Hall sector Hs) as [o [Ho Hnum]]. fold (composite country sector) in Ho.
    rewrite Hval, Ho. exact Hnum.
Qed.

Lemma row_kept_iff_all_quotients_numbers_witness :
  exists st,
    build alldata_sample all_output_sample = Ok st /\
    rows (remove_missing (output_ppp st))
    = map (fun i => nth i (rows (output_ppp st)) []) (retained_rows (output_ppp st)) /\
    StronglySorted lt (retained_rows (output_ppp st)) /\
    (In 0 (retained_rows (output_ppp st)) <->
     forall sector,
       In sector (sectors_of (index all_output_sample)) ->
       exists o,
         getitem all_output_sample ("DEU" ++ "_" ++ sector)%string = Ok (Scalar o) /\
         is_nan (o / 2) = false).
Proof.
  apply (row_kept_iff_all_quotients_numbers alldata_sample all_output_sample
           [("DEU"%string, 357); ("FRA"%string, 549); ("ZZZ"%string, 1)]%float
           [("DEU"%string, 2); ("FRA"%string, 0.5); ("ZZZ"%string, nan)]%float
           0 "DEU" 2%float).
  - exact sample_countries_distinct.
  - exact sample_labels_distinct.
  - reflexivity.
  - reflexivity.
  - reflexivity.
  - reflexivity.
Defined.
